(** * Hook dispatch of the 802.15.4 driver core (nrf_802154_core_hooks.c)

    The file under verification holds nine constant tables of function
    pointers, assembled by conditional compilation, and nine entry
    points that walk one table each.  The embedding keeps that shape:
    a table is a list of optional hook names ([None] is the C [NULL]),
    the loop index is a [uint32_t] with its wrap-around, a hook is an
    external function acting on the rest of the driver (the [world]),
    and every entry point returns an [outcome] so that an access outside
    a table or a call through [NULL] would be visible as a fault. *)

From Stdlib Require Import ZArith List Bool Lia Sorted.
Import ListNotations.
Local Open Scope Z_scope.

(** ** Build configuration (nrf_802154_config.h) *)

Record config : Type := {
  NRF_802154_CSMA_CA_ENABLED : bool;
  NRF_802154_ACK_TIMEOUT_ENABLED : bool;
  NRF_802154_DELAYED_TRX_ENABLED : bool;
  NRF_802154_IFS_ENABLED : bool
}.

(** The feature modules whose headers the file includes. *)
Inductive feature_module : Type :=
  | CSMA_CA
  | ACK_TIMEOUT
  | DELAYED_TRX
  | IFS
  | TX_TIMEOUT.

(** Position of a module in the order in which the tables list them. *)
Definition priority (m : feature_module) : nat :=
  match m with
  | CSMA_CA => 0
  | ACK_TIMEOUT => 1
  | DELAYED_TRX => 2
  | IFS => 3
  | TX_TIMEOUT => 4
  end.

(** The flag guarding a module's entries; the transmit-timeout entries
    stand outside every [#if]. *)
Definition enabled (cfg : config) (m : feature_module) : bool :=
  match m with
  | CSMA_CA => NRF_802154_CSMA_CA_ENABLED cfg
  | ACK_TIMEOUT => NRF_802154_ACK_TIMEOUT_ENABLED cfg
  | DELAYED_TRX => NRF_802154_DELAYED_TRX_ENABLED cfg
  | IFS => NRF_802154_IFS_ENABLED cfg
  | TX_TIMEOUT => true
  end.

(** ** Hook names, one type per C typedef *)

Inductive abort_hook : Type :=
  | nrf_802154_csma_ca_abort
  | nrf_802154_ack_timeout_abort
  | nrf_802154_delayed_trx_abort
  | nrf_802154_ifs_abort
  | nrf_802154_tx_timeout_abort.

Inductive pre_transmission_hook : Type :=
  | nrf_802154_csma_ca_pretransmission
  | nrf_802154_ifs_pretransmission.

Inductive transmission_ready_hook : Type :=
  | nrf_802154_tx_timeout_transmission_ready.

Inductive transmitted_hook : Type :=
  | nrf_802154_ack_timeout_transmitted_hook
  | nrf_802154_ifs_transmitted_hook.

Inductive tx_failed_hook : Type :=
  | nrf_802154_csma_ca_tx_failed_hook
  | nrf_802154_ack_timeout_tx_failed_hook.

Inductive tx_started_hook : Type :=
  | nrf_802154_csma_ca_tx_started_hook
  | nrf_802154_ack_timeout_tx_started_hook.

Inductive rx_started_hook : Type :=
  | nrf_802154_delayed_trx_rx_started_hook.

Inductive rx_ack_started_hook : Type :=
  | nrf_802154_ack_timeout_rx_ack_started_hook.

Inductive prio_changed_hook : Type :=
  | nrf_802154_csma_ca_prio_changed_hook.

(** Every hook belongs to the module whose header declares it. *)
Class Hook (H : Type) : Type := { hook_module : H -> feature_module }.

#[export] Instance abort_Hook : Hook abort_hook := {|
  hook_module h :=
    match h with
    | nrf_802154_csma_ca_abort => CSMA_CA
    | nrf_802154_ack_timeout_abort => ACK_TIMEOUT
    | nrf_802154_delayed_trx_abort => DELAYED_TRX
    | nrf_802154_ifs_abort => IFS
    | nrf_802154_tx_timeout_abort => TX_TIMEOUT
    end |}.

#[export] Instance pre_transmission_Hook : Hook pre_transmission_hook := {|
  hook_module h :=
    match h with
    | nrf_802154_csma_ca_pretransmission => CSMA_CA
    | nrf_802154_ifs_pretransmission => IFS
    end |}.

#[export] Instance transmission_ready_Hook : Hook transmission_ready_hook := {|
  hook_module h :=
    match h with
    | nrf_802154_tx_timeout_transmission_ready => TX_TIMEOUT
    end |}.

#[export] Instance transmitted_Hook : Hook transmitted_hook := {|
  hook_module h :=
    match h with
    | nrf_802154_ack_timeout_transmitted_hook => ACK_TIMEOUT
    | nrf_802154_ifs_transmitted_hook => IFS
    end |}.

#[export] Instance tx_failed_Hook : Hook tx_failed_hook := {|
  hook_module h :=
    match h with
    | nrf_802154_csma_ca_tx_failed_hook => CSMA_CA
    | nrf_802154_ack_timeout_tx_failed_hook => ACK_TIMEOUT
    end |}.

#[export] Instance tx_started_Hook : Hook tx_started_hook := {|
  hook_module h :=
    match h with
    | nrf_802154_csma_ca_tx_started_hook => CSMA_CA
    | nrf_802154_ack_timeout_tx_started_hook => ACK_TIMEOUT
    end |}.

#[export] Instance rx_started_Hook : Hook rx_started_hook := {|
  hook_module h :=
    match h with
    | nrf_802154_delayed_trx_rx_started_hook => DELAYED_TRX
    end |}.

#[export] Instance rx_ack_started_Hook : Hook rx_ack_started_hook := {|
  hook_module h :=
    match h with
    | nrf_802154_ack_timeout_rx_ack_started_hook => ACK_TIMEOUT
    end |}.

#[export] Instance prio_changed_Hook : Hook prio_changed_hook := {|
  hook_module h :=
    match h with
    | nrf_802154_csma_ca_prio_changed_hook => CSMA_CA
    end |}.

(** ** The tables

    [#if FLAG  entry,  #endif] contributes the entry or nothing. *)

Definition ifdef {X : Type} (flag : bool) (entries : list X) : list X :=
  if flag then entries else [].

Definition m_abort_hooks (cfg : config) : list (option abort_hook) :=
  ifdef (NRF_802154_CSMA_CA_ENABLED cfg) [Some nrf_802154_csma_ca_abort] ++
  ifdef (NRF_802154_ACK_TIMEOUT_ENABLED cfg) [Some nrf_802154_ack_timeout_abort] ++
  ifdef (NRF_802154_DELAYED_TRX_ENABLED cfg) [Some nrf_802154_delayed_trx_abort] ++
  ifdef (NRF_802154_IFS_ENABLED cfg) [Some nrf_802154_ifs_abort] ++
  [Some nrf_802154_tx_timeout_abort].

Definition m_pre_transmission_hooks (cfg : config)
  : list (option pre_transmission_hook) :=
  ifdef (NRF_802154_CSMA_CA_ENABLED cfg) [Some nrf_802154_csma_ca_pretransmission] ++
  ifdef (NRF_802154_IFS_ENABLED cfg) [Some nrf_802154_ifs_pretransmission] ++
  [None].

Definition m_transmission_ready_hooks (cfg : config)
  : list (option transmission_ready_hook) :=
  [Some nrf_802154_tx_timeout_transmission_ready].

Definition m_transmitted_hooks (cfg : config) : list (option transmitted_hook) :=
  ifdef (NRF_802154_ACK_TIMEOUT_ENABLED cfg) [Some nrf_802154_ack_timeout_transmitted_hook] ++
  ifdef (NRF_802154_IFS_ENABLED cfg) [Some nrf_802154_ifs_transmitted_hook] ++
  [None].

Definition m_tx_failed_hooks (cfg : config) : list (option tx_failed_hook) :=
  ifdef (NRF_802154_CSMA_CA_ENABLED cfg) [Some nrf_802154_csma_ca_tx_failed_hook] ++
  ifdef (NRF_802154_ACK_TIMEOUT_ENABLED cfg) [Some nrf_802154_ack_timeout_tx_failed_hook] ++
  [None].

Definition m_tx_started_hooks (cfg : config) : list (option tx_started_hook) :=
  ifdef (NRF_802154_CSMA_CA_ENABLED cfg) [Some nrf_802154_csma_ca_tx_started_hook] ++
  ifdef (NRF_802154_ACK_TIMEOUT_ENABLED cfg) [Some nrf_802154_ack_timeout_tx_started_hook] ++
  [None].

Definition m_rx_started_hooks (cfg : config) : list (option rx_started_hook) :=
  ifdef (NRF_802154_DELAYED_TRX_ENABLED cfg) [Some nrf_802154_delayed_trx_rx_started_hook] ++
  [None].

Definition m_rx_ack_started_hooks (cfg : config)
  : list (option rx_ack_started_hook) :=
  ifdef (NRF_802154_ACK_TIMEOUT_ENABLED cfg) [Some nrf_802154_ack_timeout_rx_ack_started_hook] ++
  [None].

Definition m_prio_changed_hooks (cfg : config) : list (option prio_changed_hook) :=
  ifdef (NRF_802154_CSMA_CA_ENABLED cfg) [Some nrf_802154_csma_ca_prio_changed_hook] ++
  [None].

(** ** Machine arithmetic and faults *)

Definition UINT32_MOD : Z := 2 ^ 32.

(** [i++] on a [uint32_t]. *)
Definition uint32_incr (i : Z) : Z := (i + 1) mod UINT32_MOD.

(** [sizeof(t) / sizeof(t[0])]. *)
Definition ARRAY_SIZE {X : Type} (t : list X) : Z := Z.of_nat (length t).

Inductive fault : Type :=
  | OutOfBounds (i : Z)   (* t[i] read with i outside the array *)
  | NullCall (i : Z)      (* call through t[i] while t[i] is NULL *)
  | OutOfFuel.            (* the loop did not finish within the budget *)

Inductive outcome (X : Type) : Type :=
  | Done (x : X)
  | Fault (f : fault).

Arguments Done {X} x.
Arguments Fault {X} f.

Definition bind {X Y : Type} (o : outcome X) (k : X -> outcome Y) : outcome Y :=
  match o with
  | Done x => k x
  | Fault f => Fault f
  end.

Notation "x <- o ;; k" := (bind o (fun x => k))
  (at level 61, o at next level, right associativity).

(** The entries of a table in front of its first [NULL]. *)
Fixpoint candidates {H : Type} (t : list (option H)) : list H :=
  match t with
  | Some h :: t' => h :: candidates t'
  | _ => []
  end.

(** ** Calls made by one dispatch

    Each call through a table entry is logged with the hook called, the
    arguments handed to it and the value it returned ([tt] for [void]). *)

Record call (H A R : Type) : Type := mk_call {
  ev_hook : H;
  ev_args : A;
  ev_ret : R
}.

Arguments mk_call {H A R} _ _ _.
Arguments ev_hook {H A R} _.
Arguments ev_args {H A R} _.
Arguments ev_ret {H A R} _.

(** What an entry point leaves behind: its return value, the state of
    the rest of the driver, and the calls it made, oldest first. *)
Record run (world H A R : Type) : Type := mk_run {
  run_result : R;
  run_world : world;
  run_calls : list (call H A R)
}.

Arguments mk_run {world H A R} _ _ _.
Arguments run_result {world H A R} _.
Arguments run_world {world H A R} _.
Arguments run_calls {world H A R} _.

(** ** The two loop shapes of the file *)

Section Loops.

Context {world H A : Type}.

Variable t : list (option H).   (* the table *)
Variable n : Z.                 (* the bound the index is compared with *)
Variable a : A.                 (* the arguments of the entry point *)

(** [t[i]] *)
Definition load (i : Z) : outcome (option H) :=
  if (0 <=? i) && (i <? ARRAY_SIZE t) then
    match nth_error t (Z.to_nat i) with
    | Some e => Done e
    | None => Fault (OutOfBounds i)
    end
  else Fault (OutOfBounds i).

(** The callee of [t[i](...)]. *)
Definition call_through (i : Z) (e : option H) : outcome H :=
  match e with
  | Some h => Done h
  | None => Fault (NullCall i)
  end.

(** [[
    for (uint32_t i = 0; i < n; i++)
    {
        if (t[i] == NULL) break;
        result = t[i](args);
        if (!result) break;
    }
    return result;
    ]]
    One unit of fuel pays for one evaluation of the loop condition. *)
Fixpoint bool_hooks_loop (invoke : H -> A -> world -> bool * world)
    (fuel : nat) (i : Z) (result : bool) (w : world)
    (log : list (call H A bool)) : outcome (run world H A bool) :=
  match fuel with
  | O => Fault OutOfFuel
  | S fuel' =>
      if i <? n then
        e <- load i ;;
        match e with
        | None => Done (mk_run result w log)
        | Some _ =>
            f <- load i ;;
            h <- call_through i f ;;
            let (r, w') := invoke h a w in
            let log' := log ++ [mk_call h a r] in
            if r then bool_hooks_loop invoke fuel' (uint32_incr i) r w' log'
            else Done (mk_run r w' log')
        end
      else Done (mk_run result w log)
  end.

(** [[
    for (uint32_t i = 0; i < n; i++)
    {
        if (t[i] == NULL) break;
        t[i](args);
    }
    ]] *)
Fixpoint void_hooks_loop (invoke : H -> A -> world -> world)
    (fuel : nat) (i : Z) (w : world)
    (log : list (call H A unit)) : outcome (run world H A unit) :=
  match fuel with
  | O => Fault OutOfFuel
  | S fuel' =>
      if i <? n then
        e <- load i ;;
        match e with
        | None => Done (mk_run tt w log)
        | Some _ =>
            f <- load i ;;
            h <- call_through i f ;;
            let w' := invoke h a w in
            void_hooks_loop invoke fuel' (uint32_incr i) w' (log ++ [mk_call h a tt])
        end
      else Done (mk_run tt w log)
  end.

End Loops.

(** Loop-condition evaluations granted to a walk over [t]: one per
    element and the one that fails. *)
Definition budget {X : Type} (t : list X) : nat := S (length t).

(** ** The entry points *)

Section Engine.

(** Types of nrf_802154_types.h and of the frame pointer; the file only
    passes values of these types on. *)
Context {frame_ptr nrf_802154_term_t req_originator_t
         nrf_802154_tx_error_t nrf_802154_transmit_failed_notify_t : Type}.

(** Everything the hooks can see and change: the state of the feature
    modules, the radio, the frame buffers. *)
Context {world : Type}.

(** The hook functions, defined in mac_features/. *)
Record mac_features : Type := {
  abort_fn : abort_hook -> nrf_802154_term_t -> req_originator_t ->
             world -> bool * world;
  pre_transmission_fn : pre_transmission_hook -> frame_ptr -> bool ->
             nrf_802154_transmit_failed_notify_t -> world -> bool * world;
  transmission_ready_fn : transmission_ready_hook -> frame_ptr -> bool ->
             world -> world;
  transmitted_fn : transmitted_hook -> frame_ptr -> world -> world;
  tx_failed_fn : tx_failed_hook -> frame_ptr -> nrf_802154_tx_error_t ->
             world -> bool * world;
  tx_started_fn : tx_started_hook -> frame_ptr -> world -> bool * world;
  rx_started_fn : rx_started_hook -> frame_ptr -> world -> world;
  rx_ack_started_fn : rx_ack_started_hook -> world -> world;
  prio_changed_fn : prio_changed_hook -> Z -> Z -> world -> world
}.

Variable E : mac_features.
Variable cfg : config.

Definition abort_invoke (h : abort_hook)
    (a : nrf_802154_term_t * req_originator_t) : world -> bool * world :=
  abort_fn E h (fst a) (snd a).

Definition pre_transmission_invoke (h : pre_transmission_hook)
    (a : frame_ptr * bool * nrf_802154_transmit_failed_notify_t)
    : world -> bool * world :=
  pre_transmission_fn E h (fst (fst a)) (snd (fst a)) (snd a).

Definition transmission_ready_invoke (h : transmission_ready_hook)
    (a : frame_ptr * bool) : world -> world :=
  transmission_ready_fn E h (fst a) (snd a).

Definition tx_failed_invoke (h : tx_failed_hook)
    (a : frame_ptr * nrf_802154_tx_error_t) : world -> bool * world :=
  tx_failed_fn E h (fst a) (snd a).

Definition rx_ack_started_invoke (h : rx_ack_started_hook) (a : unit)
    : world -> world :=
  rx_ack_started_fn E h.

Definition prio_changed_invoke (h : prio_changed_hook) (a : Z * Z)
    : world -> world :=
  prio_changed_fn E h (fst a) (snd a).

Definition nrf_802154_core_hooks_terminate
    (term_lvl : nrf_802154_term_t) (req_orig : req_originator_t) (w : world)
    : outcome (run world abort_hook _ bool) :=
  bool_hooks_loop (m_abort_hooks cfg) (ARRAY_SIZE (m_abort_hooks cfg))
    (term_lvl, req_orig) abort_invoke
    (budget (m_abort_hooks cfg)) 0 true w [].

Definition nrf_802154_core_hooks_pre_transmission
    (p_frame : frame_ptr) (cca : bool)
    (notify_function : nrf_802154_transmit_failed_notify_t) (w : world)
    : outcome (run world pre_transmission_hook _ bool) :=
  bool_hooks_loop (m_pre_transmission_hooks cfg)
    (ARRAY_SIZE (m_pre_transmission_hooks cfg))
    (p_frame, cca, notify_function) pre_transmission_invoke
    (budget (m_pre_transmission_hooks cfg)) 0 true w [].

Definition nrf_802154_core_hooks_transmission_ready
    (p_frame : frame_ptr) (ready : bool) (w : world)
    : outcome (run world transmission_ready_hook _ unit) :=
  let nb_hooks := ARRAY_SIZE (m_transmission_ready_hooks cfg) mod UINT32_MOD in
  void_hooks_loop (m_transmission_ready_hooks cfg) nb_hooks
    (p_frame, ready) transmission_ready_invoke
    (budget (m_transmission_ready_hooks cfg)) 0 w [].

Definition nrf_802154_core_hooks_transmitted (p_frame : frame_ptr) (w : world)
    : outcome (run world transmitted_hook _ unit) :=
  void_hooks_loop (m_transmitted_hooks cfg)
    (ARRAY_SIZE (m_transmitted_hooks cfg))
    p_frame (transmitted_fn E)
    (budget (m_transmitted_hooks cfg)) 0 w [].

Definition nrf_802154_core_hooks_tx_failed
    (p_frame : frame_ptr) (error : nrf_802154_tx_error_t) (w : world)
    : outcome (run world tx_failed_hook _ bool) :=
  bool_hooks_loop (m_tx_failed_hooks cfg) (ARRAY_SIZE (m_tx_failed_hooks cfg))
    (p_frame, error) tx_failed_invoke
    (budget (m_tx_failed_hooks cfg)) 0 true w [].

Definition nrf_802154_core_hooks_tx_started (p_frame : frame_ptr) (w : world)
    : outcome (run world tx_started_hook _ bool) :=
  bool_hooks_loop (m_tx_started_hooks cfg) (ARRAY_SIZE (m_tx_started_hooks cfg))
    p_frame (tx_started_fn E)
    (budget (m_tx_started_hooks cfg)) 0 true w [].

Definition nrf_802154_core_hooks_rx_started (p_frame : frame_ptr) (w : world)
    : outcome (run world rx_started_hook _ unit) :=
  void_hooks_loop (m_rx_started_hooks cfg) (ARRAY_SIZE (m_rx_started_hooks cfg))
    p_frame (rx_started_fn E)
    (budget (m_rx_started_hooks cfg)) 0 w [].

Definition nrf_802154_core_hooks_rx_ack_started (w : world)
    : outcome (run world rx_ack_started_hook _ unit) :=
  void_hooks_loop (m_rx_ack_started_hooks cfg)
    (ARRAY_SIZE (m_rx_ack_started_hooks cfg))
    tt rx_ack_started_invoke
    (budget (m_rx_ack_started_hooks cfg)) 0 w [].

Definition nrf_802154_core_hooks_prio_changed (old_prio new_prio : Z) (w : world)
    : outcome (run world prio_changed_hook _ unit) :=
  void_hooks_loop (m_prio_changed_hooks cfg)
    (ARRAY_SIZE (m_prio_changed_hooks cfg))
    (old_prio, new_prio) prio_changed_invoke
    (budget (m_prio_changed_hooks cfg)) 0 w [].

End Engine.

Arguments mac_features : clear implicits.

(** ** The two aggregation policies, as the specification words them

    These follow the text of the specification, not the C file; the
    loops above are compared with them. *)

Section Policies.

Context {world H A : Type}.
Variable a : A.

(** AND-short-circuit: the result starts as [result]; the candidates are
    invoked in order; each return value becomes the running result;
    invocation stops at the first [false]. *)
Fixpoint and_chain (invoke : H -> A -> world -> bool * world)
    (cands : list H) (result : bool) (w : world) : run world H A bool :=
  match cands with
  | [] => mk_run result w []
  | h :: rest =>
      let (r, w') := invoke h a w in
      let tail := if r then and_chain invoke rest r w' else mk_run r w' [] in
      mk_run (run_result tail) (run_world tail)
             (mk_call h a r :: run_calls tail)
  end.

(** Fan-out: every candidate is invoked once, in order. *)
Fixpoint fan_out (invoke : H -> A -> world -> world)
    (cands : list H) (w : world) : run world H A unit :=
  match cands with
  | [] => mk_run tt w []
  | h :: rest =>
      let tail := fan_out invoke rest (invoke h a w) in
      mk_run tt (run_world tail) (mk_call h a tt :: run_calls tail)
  end.

End Policies.

(** A [void] hook seen as returning [tt]. *)
Definition returning_tt {world H A : Type} (invoke : H -> A -> world -> world)
    (h : H) (a : A) (w : world) : unit * world :=
  (tt, invoke h a w).

(** The calls already logged, followed by those of [r]. *)
Definition after {world H A R : Type} (log : list (call H A R))
    (r : run world H A R) : run world H A R :=
  mk_run (run_result r) (run_world r) (log ++ run_calls r).

Definition prefix {X : Type} (l1 l2 : list X) : Prop :=
  exists l3, l2 = l1 ++ l3.

(** ** Properties of one dispatch *)

Section Properties.

Context {world H A R : Type}.

(** The log tells the truth: every logged return value is the one the
    hook gave in the state its predecessors left, and [w'] is the state
    the last of them left. *)
Fixpoint genuine (invoke : H -> A -> world -> R * world)
    (calls : list (call H A R)) (w w' : world) : Prop :=
  match calls with
  | [] => w' = w
  | e :: rest =>
      exists w1, invoke (ev_hook e) (ev_args e) w = (ev_ret e, w1) /\
                 genuine invoke rest w1 w'
  end.

Definition hooks_called (r : run world H A R) : list H :=
  map ev_hook (run_calls r).

Definition passes_args (a : A) (r : run world H A R) : Prop :=
  Forall (fun e => ev_args e = a) (run_calls r).

(** The dispatch finished without fault, made at most one call per
    table element, and called only entries in front of the first NULL,
    starting from the first entry and skipping none. *)
Definition safe_dispatch (t : list (option H))
    (o : outcome (run world H A R)) : Prop :=
  exists r, o = Done r /\
    (length (run_calls r) <= length t)%nat /\
    prefix (hooks_called r) (candidates t).

(** Two dispatches that made the same calls with the same return
    values and gave the same result, leaving related states. *)
Definition same_run (Rel : world -> world -> Prop)
    (o1 o2 : outcome (run world H A R)) : Prop :=
  exists r1 r2, o1 = Done r1 /\ o2 = Done r2 /\
    run_result r1 = run_result r2 /\
    run_calls r1 = run_calls r2 /\
    Rel (run_world r1) (run_world r2).

Definition map_world (f : world -> world) (o : outcome (run world H A R))
    : outcome (run world H A R) :=
  match o with
  | Done r => Done (mk_run (run_result r) (f (run_world r)) (run_calls r))
  | Fault e => Fault e
  end.

(** The engine as a pass-through: every call got the arguments [a];
    what no hook changes ([keeps]) is unchanged by the dispatch; and the
    dispatch run after a change [f] of the state that no hook notices
    ([blind]) is the dispatch run before it. *)
Definition pass_through {B : Type} (obs : world -> B) (f : world -> world)
    (a : A) (w : world) (o o_f : outcome (run world H A R)) : Prop :=
  exists r, o = Done r /\
    passes_args a r /\
    obs (run_world r) = obs w /\
    o_f = map_world f o.

End Properties.

Section BoolProperties.

Context {world H A : Type}.

(** The AND-short-circuit contract of one call, on the log. *)
Record and_short_circuit (invoke : H -> A -> world -> bool * world)
    (cands : list H) (a : A) (w : world) (r : run world H A bool)
    : Prop := {
  asc_in_order : hooks_called r = firstn (length (run_calls r)) cands;
  asc_args : passes_args a r;
  asc_genuine : genuine invoke (run_calls r) w (run_world r);
  asc_running : run_result r = last (map ev_ret (run_calls r)) true;
  asc_stops : forall k e, nth_error (run_calls r) k = Some e ->
                ev_ret e = false -> S k = length (run_calls r);
  asc_true : run_result r = true <->
                hooks_called r = cands /\
                Forall (fun e => ev_ret e = true) (run_calls r);
  asc_false : run_result r = false <->
                exists pre e, run_calls r = pre ++ [e] /\
                  Forall (fun x => ev_ret x = true) pre /\
                  ev_ret e = false;
  asc_empty : cands = [] -> run_result r = true /\ run_calls r = []
}.

Definition and_short_circuit_dispatch (invoke : H -> A -> world -> bool * world)
    (t : list (option H)) (a : A) (w : world)
    (o : outcome (run world H A bool)) : Prop :=
  o = Done (and_chain a invoke (candidates t) true w) /\
  exists r, o = Done r /\ and_short_circuit invoke (candidates t) a w r.

(** The fan-out contract of one call, on the log. *)
Record fans_out (invoke : H -> A -> world -> world)
    (cands : list H) (a : A) (w : world) (r : run world H A unit)
    : Prop := {
  fo_all_in_order : hooks_called r = cands;
  fo_once : NoDup (hooks_called r);
  fo_args : passes_args a r;
  fo_genuine : genuine (returning_tt invoke) (run_calls r) w (run_world r);
  fo_empty : cands = [] -> run_calls r = []
}.

Definition fan_out_dispatch (invoke : H -> A -> world -> world)
    (t : list (option H)) (a : A) (w : world)
    (o : outcome (run world H A unit)) : Prop :=
  o = Done (fan_out a invoke (candidates t) w) /\
  exists r, o = Done r /\ fans_out invoke (candidates t) a w r.

End BoolProperties.

(** ** Assumptions one can make about hook functions *)

Section HookAssumptions.

Context {world H A : Type}.

(** No hook changes what [obs] shows of the state. *)
Definition bool_keeps {B : Type} (obs : world -> B)
    (invoke : H -> A -> world -> bool * world) : Prop :=
  forall h a w, obs (snd (invoke h a w)) = obs w.

Definition void_keeps {B : Type} (obs : world -> B)
    (invoke : H -> A -> world -> world) : Prop :=
  forall h a w, obs (invoke h a w) = obs w.

(** No hook notices the change [f] of the state. *)
Definition bool_blind (f : world -> world)
    (invoke : H -> A -> world -> bool * world) : Prop :=
  forall h a w,
    invoke h a (f w) = (fst (invoke h a w), f (snd (invoke h a w))).

Definition void_blind (f : world -> world)
    (invoke : H -> A -> world -> world) : Prop :=
  forall h a w, invoke h a (f w) = f (invoke h a w).

(** Hooks behave alike in related states: same return value, related
    states afterwards. *)
Definition bool_alike (Rel : world -> world -> Prop)
    (invoke : H -> A -> world -> bool * world) : Prop :=
  forall h a w1 w2, Rel w1 w2 ->
    fst (invoke h a w1) = fst (invoke h a w2) /\
    Rel (snd (invoke h a w1)) (snd (invoke h a w2)).

Definition void_alike (Rel : world -> world -> Prop)
    (invoke : H -> A -> world -> world) : Prop :=
  forall h a w1 w2, Rel w1 w2 -> Rel (invoke h a w1) (invoke h a w2).

End HookAssumptions.

Section FeatureAssumptions.

Context {frame_ptr nrf_802154_term_t req_originator_t
         nrf_802154_tx_error_t nrf_802154_transmit_failed_notify_t
         world : Type}.

Variable E : mac_features frame_ptr nrf_802154_term_t req_originator_t
               nrf_802154_tx_error_t nrf_802154_transmit_failed_notify_t world.

(** The hooks that are handed a frame leave [obs] alone. *)
Definition frame_hooks_keep {B : Type} (obs : world -> B) : Prop :=
  bool_keeps obs (pre_transmission_invoke E) /\
  void_keeps obs (transmission_ready_invoke E) /\
  void_keeps obs (transmitted_fn E) /\
  bool_keeps obs (tx_failed_invoke E) /\
  bool_keeps obs (tx_started_fn E) /\
  void_keeps obs (rx_started_fn E).

(** The hooks that are handed a frame do not notice [f]. *)
Definition frame_hooks_blind (f : world -> world) : Prop :=
  bool_blind f (pre_transmission_invoke E) /\
  void_blind f (transmission_ready_invoke E) /\
  void_blind f (transmitted_fn E) /\
  bool_blind f (tx_failed_invoke E) /\
  bool_blind f (tx_started_fn E) /\
  void_blind f (rx_started_fn E).

(** All hooks behave alike in [Rel]-related states. *)
Definition hooks_alike (Rel : world -> world -> Prop) : Prop :=
  bool_alike Rel (abort_invoke E) /\
  bool_alike Rel (pre_transmission_invoke E) /\
  void_alike Rel (transmission_ready_invoke E) /\
  void_alike Rel (transmitted_fn E) /\
  bool_alike Rel (tx_failed_invoke E) /\
  bool_alike Rel (tx_started_fn E) /\
  void_alike Rel (rx_started_fn E) /\
  void_alike Rel (rx_ack_started_invoke E) /\
  void_alike Rel (prio_changed_invoke E).

End FeatureAssumptions.

(** ** Configurations and priority order *)

Definition no_features : config :=
  {| NRF_802154_CSMA_CA_ENABLED := false;
     NRF_802154_ACK_TIMEOUT_ENABLED := false;
     NRF_802154_DELAYED_TRX_ENABLED := false;
     NRF_802154_IFS_ENABLED := false |}.

Definition all_features : config :=
  {| NRF_802154_CSMA_CA_ENABLED := true;
     NRF_802154_ACK_TIMEOUT_ENABLED := true;
     NRF_802154_DELAYED_TRX_ENABLED := true;
     NRF_802154_IFS_ENABLED := true |}.

(** CSMA/CA and ACK timeout on, delayed TRX and IFS off. *)
Definition csma_and_ack_timeout : config :=
  {| NRF_802154_CSMA_CA_ENABLED := true;
     NRF_802154_ACK_TIMEOUT_ENABLED := true;
     NRF_802154_DELAYED_TRX_ENABLED := false;
     NRF_802154_IFS_ENABLED := false |}.

Definition before (m1 m2 : feature_module) : Prop :=
  (priority m1 < priority m2)%nat.

(** The hooks are listed by strictly increasing module priority. *)
Definition in_priority_order {H : Type} `{Hook H} (hooks : list H) : Prop :=
  StronglySorted before (map hook_module hooks).

(** An entry of a table survives in [cfg] when it is the terminator or
    its module is enabled. *)
Definition entry_enabled {H : Type} `{Hook H} (cfg : config) (e : option H)
    : bool :=
  match e with
  | Some h => enabled cfg (hook_module h)
  | None => true
  end.

Definition enabled_hook {H : Type} `{Hook H} (cfg : config) (h : H) : bool :=
  enabled cfg (hook_module h).

(** In [cfg] the table [t] is the full table with the entries of the
    disabled modules taken out, the others keeping their order, and so
    is its candidate sequence; every call of the dispatch [o] goes to an
    enabled module. *)
Definition only_enabled {world H A R : Type} `{Hook H} (cfg : config)
    (t : config -> list (option H)) (o : outcome (run world H A R)) : Prop :=
  t cfg = filter (entry_enabled cfg) (t all_features) /\
  candidates (t cfg) = filter (enabled_hook cfg) (candidates (t all_features)) /\
  exists r, o = Done r /\
    Forall (fun h => enabled_hook cfg h = true) (hooks_called r).

(** Every dispatch of the channel calls a prefix of one list that
    depends on the configuration alone, and that list is in priority
    order. *)
Definition fixed_priority_order {world H A R : Type} `{Hook H}
    (t : list (option H)) (o : outcome (run world H A R)) : Prop :=
  in_priority_order (candidates t) /\
  exists r, o = Done r /\
    prefix (hooks_called r) (candidates t) /\
    in_priority_order (hooks_called r).

(** The dispatch finished and returned [true]. *)
Definition returns_true {world H A : Type}
    (o : outcome (run world H A bool)) : Prop :=
  exists r, o = Done r /\ run_result r = true.

(** The dispatch finished without calling any hook. *)
Definition makes_no_call {world H A R : Type}
    (o : outcome (run world H A R)) : Prop :=
  exists r, o = Done r /\ run_calls r = [].

(** ** Sample feature modules, for evaluating the entry points

    The state counts the hook executions and holds one byte of a frame
    buffer; every veto hook returns [verdict]. *)

Definition sample_world : Type := (nat * Z)%type.

Definition stub_bool (verdict : bool) (w : sample_world) : bool * sample_world :=
  (verdict, (S (fst w), snd w)).

Definition stub_void (w : sample_world) : sample_world :=
  (S (fst w), snd w).

Definition stub_features (verdict : bool)
    : mac_features Z Z Z Z unit sample_world :=
  {| abort_fn := fun _ _ _ => stub_bool verdict;
     pre_transmission_fn := fun _ _ _ _ => stub_bool verdict;
     transmission_ready_fn := fun _ _ _ => stub_void;
     transmitted_fn := fun _ _ => stub_void;
     tx_failed_fn := fun _ _ _ => stub_bool verdict;
     tx_started_fn := fun _ _ => stub_bool verdict;
     rx_started_fn := fun _ _ => stub_void;
     rx_ack_started_fn := fun _ => stub_void;
     prio_changed_fn := fun _ _ _ => stub_void |}.

(** Overwriting the frame byte. *)
Definition poke (b : Z) (w : sample_world) : sample_world := (fst w, b).

(** The two states hold the same frame byte. *)
Definition same_frame_byte (w1 w2 : sample_world) : Prop := snd w1 = snd w2.

(** ** Comparing builds and counting calls *)

Definition same_module (m1 m2 : feature_module) : bool :=
  Nat.eqb (priority m1) (priority m2).

(** [cfg] with every flag cleared whose module is not in [ms]. *)
Definition restrict_to (ms : list feature_module) (cfg : config) : config :=
  {| NRF_802154_CSMA_CA_ENABLED :=
       NRF_802154_CSMA_CA_ENABLED cfg && existsb (same_module CSMA_CA) ms;
     NRF_802154_ACK_TIMEOUT_ENABLED :=
       NRF_802154_ACK_TIMEOUT_ENABLED cfg && existsb (same_module ACK_TIMEOUT) ms;
     NRF_802154_DELAYED_TRX_ENABLED :=
       NRF_802154_DELAYED_TRX_ENABLED cfg && existsb (same_module DELAYED_TRX) ms;
     NRF_802154_IFS_ENABLED :=
       NRF_802154_IFS_ENABLED cfg && existsb (same_module IFS) ms |}.

(** [cfg] built without CSMA/CA. *)
Definition without_csma_ca (cfg : config) : config :=
  {| NRF_802154_CSMA_CA_ENABLED := false;
     NRF_802154_ACK_TIMEOUT_ENABLED := NRF_802154_ACK_TIMEOUT_ENABLED cfg;
     NRF_802154_DELAYED_TRX_ENABLED := NRF_802154_DELAYED_TRX_ENABLED cfg;
     NRF_802154_IFS_ENABLED := NRF_802154_IFS_ENABLED cfg |}.

(** Every feature of [cfg] is a feature of [cfg']. *)
Definition config_sub (cfg cfg' : config) : bool :=
  implb (NRF_802154_CSMA_CA_ENABLED cfg) (NRF_802154_CSMA_CA_ENABLED cfg') &&
  implb (NRF_802154_ACK_TIMEOUT_ENABLED cfg) (NRF_802154_ACK_TIMEOUT_ENABLED cfg') &&
  implb (NRF_802154_DELAYED_TRX_ENABLED cfg) (NRF_802154_DELAYED_TRX_ENABLED cfg') &&
  implb (NRF_802154_IFS_ENABLED cfg) (NRF_802154_IFS_ENABLED cfg').

(** Number of optional features built in. *)
Definition features_enabled (cfg : config) : nat :=
  length (filter (enabled cfg) [CSMA_CA; ACK_TIMEOUT; DELAYED_TRX; IFS]).

Definition flag (b : bool) : nat := if b then 1 else 0.

(** The dispatch finished after at least [lo] and at most [hi] calls. *)
Definition calls_between {world H A R : Type} (lo hi : nat)
    (o : outcome (run world H A R)) : Prop :=
  exists r, o = Done r /\
    (lo <= length (run_calls r))%nat /\ (length (run_calls r) <= hi)%nat.

(** The dispatch [o] with the call [c] made before it. *)
Definition preceded_by {world H A R : Type} (c : call H A R)
    (o : outcome (run world H A R)) : outcome (run world H A R) :=
  r <- o ;; Done (after [c] r).

(** The hooks called by [o], a dispatch in the build [cfg], are those
    called by [o'] that belong to a module enabled in [cfg]. *)
Definition notifies_enabled_of {world H A R : Type} `{Hook H} (cfg : config)
    (o o' : outcome (run world H A R)) : Prop :=
  exists r r', o = Done r /\ o' = Done r' /\
    hooks_called r = filter (enabled_hook cfg) (hooks_called r').

(** [h'] belongs to a module of the priority of [h]'s or before it. *)
Definition up_to {H : Type} `{Hook H} (h h' : H) : bool :=
  (priority (hook_module h') <=? priority (hook_module h))%nat.

(** The veto dispatch [o] over the table [t] either returned [true]
    having called every candidate, or returned [false] on the refusal of
    its last call, having called exactly the candidates up to the module
    that refused. *)
Definition granted_or_refused_at {world H A : Type} `{Hook H}
    (t : list (option H)) (o : outcome (run world H A bool)) : Prop :=
  exists r, o = Done r /\
    ((run_result r = true /\ hooks_called r = candidates t) \/
     (run_result r = false /\
      exists front e,
        run_calls r = front ++ [e] /\ ev_ret e = false /\
        hooks_called r = filter (up_to (ev_hook e)) (candidates t))).

(** The verdict of a hook does not depend on the state. *)
Definition stateless_verdict {world H A : Type}
    (invoke : H -> A -> world -> bool * world) : Prop :=
  forall h a w w', fst (invoke h a w) = fst (invoke h a w').

Definition stateless_verdicts {frame_ptr nrf_802154_term_t req_originator_t
    nrf_802154_tx_error_t nrf_802154_transmit_failed_notify_t world : Type}
    (E : mac_features frame_ptr nrf_802154_term_t req_originator_t
           nrf_802154_tx_error_t nrf_802154_transmit_failed_notify_t world)
    : Prop :=
  stateless_verdict (abort_invoke E) /\
  stateless_verdict (pre_transmission_invoke E) /\
  stateless_verdict (tx_failed_invoke E) /\
  stateless_verdict (tx_started_fn E).

(** The veto dispatch [o], started in [w], returned the conjunction of
    the verdicts the candidates of [t] give in [w]. *)
Definition returns_conjunction {world H A : Type}
    (invoke : H -> A -> world -> bool * world) (t : list (option H))
    (a : A) (w : world) (o : outcome (run world H A bool)) : Prop :=
  exists r, o = Done r /\
    run_result r = forallb (fun h => fst (invoke h a w)) (candidates t).

(** ** Proof automation *)

Ltac each_config cfg := destruct cfg as [[] [] [] []].

Ltac sorted_by_priority :=
  repeat first [ apply SSorted_nil | apply SSorted_cons
               | apply Forall_nil | apply Forall_cons
               | (unfold before; cbn; lia) ].

Ltac distinct_entries :=
  repeat first [ apply NoDup_nil | apply NoDup_cons
               | (cbn; intuition discriminate) ].

Ltac conjuncts := repeat match goal with |- _ /\ _ => split end.

Create HintDb entry_points.

(** * Proofs *)

(** ** The loops compute the policies *)

Section LoopLemmas.

Context {world H A : Type}.
Variable a : A.

Lemma load_at (pre suf : list (option H)) (e : option H) :
  load (pre ++ e :: suf) (Z.of_nat (length pre)) = Done e.
Proof.
  unfold load, ARRAY_SIZE.
  rewrite length_app; cbn [length].
  replace ((0 <=? Z.of_nat (length pre)) &&
           (Z.of_nat (length pre) <? Z.of_nat (length pre + S (length suf))))
    with true
    by (symmetry; apply andb_true_iff; split;
        [apply Z.leb_le | apply Z.ltb_lt]; lia).
  rewrite Nat2Z.id, nth_error_app2, Nat.sub_diag by lia.
  reflexivity.
Qed.

Lemma uint32_incr_at (pre suf : list (option H)) (e : option H) :
  ARRAY_SIZE (pre ++ e :: suf) < UINT32_MOD ->
  uint32_incr (Z.of_nat (length pre)) = Z.of_nat (length (pre ++ [e])).
Proof.
  unfold ARRAY_SIZE, uint32_incr; intros Hsmall.
  rewrite length_app in *; cbn [length] in *.
  rewrite Z.mod_small; lia.
Qed.

Lemma after_nil {R : Type} (log : list (call H A R)) (x : R) (w : world) :
  after log (mk_run x w []) = mk_run x w log.
Proof. unfold after; cbn. now rewrite app_nil_r. Qed.

Lemma after_cons {R : Type} (log : list (call H A R)) (e : call H A R)
    (r : run world H A R) :
  after (log ++ [e]) r =
  after log (mk_run (run_result r) (run_world r) (e :: run_calls r)).
Proof. unfold after; cbn. now rewrite <- app_assoc. Qed.

Lemma bool_hooks_loop_refines (invoke : H -> A -> world -> bool * world) :
  forall (suf pre : list (option H)) (fuel : nat) (result : bool)
         (w : world) (log : list (call H A bool)),
    ARRAY_SIZE (pre ++ suf) < UINT32_MOD ->
    (length suf < fuel)%nat ->
    bool_hooks_loop (pre ++ suf) (ARRAY_SIZE (pre ++ suf)) a invoke
      fuel (Z.of_nat (length pre)) result w log
    = Done (after log (and_chain a invoke (candidates suf) result w)).
Proof.
  induction suf as [|e suf IH]; intros pre fuel result w log Hsmall Hfuel;
    destruct fuel as [|fuel]; try (cbn in Hfuel; lia); cbn [bool_hooks_loop].
  - rewrite app_nil_r. unfold ARRAY_SIZE. rewrite Z.ltb_irrefl.
    cbn. now rewrite after_nil.
  - replace (Z.of_nat (length pre) <? ARRAY_SIZE (pre ++ e :: suf)) with true
      by (symmetry; apply Z.ltb_lt; unfold ARRAY_SIZE;
          rewrite length_app; cbn [length]; lia).
    rewrite load_at. cbn [bind].
    destruct e as [h|]; cbn [candidates and_chain call_through bind].
    + destruct (invoke h a w) as [r w'].
      destruct r.
      * rewrite (uint32_incr_at pre suf (Some h) Hsmall).
        replace (pre ++ Some h :: suf) with ((pre ++ [Some h]) ++ suf)
          by (now rewrite <- app_assoc).
        rewrite IH.
        -- now rewrite after_cons.
        -- rewrite <- app_assoc. exact Hsmall.
        -- cbn in Hfuel. lia.
      * now rewrite <- (after_nil (log ++ _)), after_cons.
    + now rewrite after_nil.
Qed.

Lemma void_hooks_loop_refines (invoke : H -> A -> world -> world) :
  forall (suf pre : list (option H)) (fuel : nat)
         (w : world) (log : list (call H A unit)),
    ARRAY_SIZE (pre ++ suf) < UINT32_MOD ->
    (length suf < fuel)%nat ->
    void_hooks_loop (pre ++ suf) (ARRAY_SIZE (pre ++ suf)) a invoke
      fuel (Z.of_nat (length pre)) w log
    = Done (after log (fan_out a invoke (candidates suf) w)).
Proof.
  induction suf as [|e suf IH]; intros pre fuel w log Hsmall Hfuel;
    destruct fuel as [|fuel]; try (cbn in Hfuel; lia); cbn [void_hooks_loop].
  - rewrite app_nil_r. unfold ARRAY_SIZE. rewrite Z.ltb_irrefl.
    cbn. now rewrite after_nil.
  - replace (Z.of_nat (length pre) <? ARRAY_SIZE (pre ++ e :: suf)) with true
      by (symmetry; apply Z.ltb_lt; unfold ARRAY_SIZE;
          rewrite length_app; cbn [length]; lia).
    rewrite load_at. cbn [bind].
    destruct e as [h|]; cbn [candidates fan_out call_through bind].
    + rewrite (uint32_incr_at pre suf (Some h) Hsmall).
      replace (pre ++ Some h :: suf) with ((pre ++ [Some h]) ++ suf)
        by (now rewrite <- app_assoc).
      rewrite IH.
      * rewrite after_cons.
        now destruct (run_result (fan_out a invoke (candidates suf) (invoke h a w))).
      * rewrite <- app_assoc. exact Hsmall.
      * cbn in Hfuel. lia.
    + now rewrite after_nil.
Qed.

Lemma after_nil_l {R : Type} (r : run world H A R) : after [] r = r.
Proof. now destruct r. Qed.

(** A walk from index 0 with the budget of the table. *)
Lemma bool_walk (invoke : H -> A -> world -> bool * world)
    (t : list (option H)) (w : world) :
  ARRAY_SIZE t < UINT32_MOD ->
  bool_hooks_loop t (ARRAY_SIZE t) a invoke (budget t) 0 true w []
  = Done (and_chain a invoke (candidates t) true w).
Proof.
  intros Hsmall.
  pose proof (bool_hooks_loop_refines invoke t [] (budget t) true w [] Hsmall)
    as Hwalk.
  cbn [app length Z.of_nat] in Hwalk.
  rewrite Hwalk by (unfold budget; lia).
  now rewrite after_nil_l.
Qed.

Lemma void_walk (invoke : H -> A -> world -> world)
    (t : list (option H)) (w : world) :
  ARRAY_SIZE t < UINT32_MOD ->
  void_hooks_loop t (ARRAY_SIZE t) a invoke (budget t) 0 w []
  = Done (fan_out a invoke (candidates t) w).
Proof.
  intros Hsmall.
  pose proof (void_hooks_loop_refines invoke t [] (budget t) w [] Hsmall)
    as Hwalk.
  cbn [app length Z.of_nat] in Hwalk.
  rewrite Hwalk by (unfold budget; lia).
  now rewrite after_nil_l.
Qed.

End LoopLemmas.

(** ** What the policies guarantee *)

Section PolicyLemmas.

Context {world H A : Type}.
Variable a : A.

Lemma last_cons {X : Type} (x d : X) (l : list X) :
  last (x :: l) d = last l x.
Proof.
  revert x; induction l as [|y l IH]; intros x; [reflexivity|].
  change (last (x :: y :: l) d) with (last (y :: l) d).
  destruct l as [|z l]; [reflexivity | exact (IH x)].
Qed.

Section AndChain.

Variable invoke : H -> A -> world -> bool * world.

(** The three shapes the first step of a chain can take. *)
Lemma and_chain_cons (h : H) (rest : list H) (result : bool) (w : world) :
  let r := fst (invoke h a w) in
  let w' := snd (invoke h a w) in
  and_chain a invoke (h :: rest) result w =
  if r then after [mk_call h a true] (and_chain a invoke rest true w')
  else mk_run false w' [mk_call h a false].
Proof.
  cbn. destruct (invoke h a w) as [[] w']; reflexivity.
Qed.

Lemma and_chain_hooks (cands : list H) :
  forall result w,
    hooks_called (and_chain a invoke cands result w) =
    firstn (length (run_calls (and_chain a invoke cands result w))) cands.
Proof.
  induction cands as [|h rest IH]; intros result w; [reflexivity|].
  rewrite and_chain_cons.
  destruct (fst (invoke h a w)); cbn; [|reflexivity].
  f_equal. apply IH.
Qed.

Lemma and_chain_args (cands : list H) :
  forall result w, passes_args a (and_chain a invoke cands result w).
Proof.
  unfold passes_args.
  induction cands as [|h rest IH]; intros result w; [constructor|].
  rewrite and_chain_cons.
  destruct (fst (invoke h a w)); cbn; repeat constructor. apply IH.
Qed.

Lemma and_chain_genuine (cands : list H) :
  forall result w,
    genuine invoke (run_calls (and_chain a invoke cands result w)) w
            (run_world (and_chain a invoke cands result w)).
Proof.
  induction cands as [|h rest IH]; intros result w; [reflexivity|].
  rewrite and_chain_cons.
  destruct (invoke h a w) as [[] w'] eqn:Hcall; cbn.
  - exists w'. split; [assumption | apply IH].
  - exists w'. split; [assumption | reflexivity].
Qed.

Lemma and_chain_running (cands : list H) :
  forall result w,
    run_result (and_chain a invoke cands result w) =
    last (map ev_ret (run_calls (and_chain a invoke cands result w))) result.
Proof.
  induction cands as [|h rest IH]; intros result w; [reflexivity|].
  rewrite and_chain_cons.
  destruct (fst (invoke h a w)); [|reflexivity].
  unfold after; cbn [run_result run_calls app map].
  rewrite last_cons. apply IH.
Qed.

Lemma and_chain_stops (cands : list H) :
  forall result w k e,
    nth_error (run_calls (and_chain a invoke cands result w)) k = Some e ->
    ev_ret e = false ->
    S k = length (run_calls (and_chain a invoke cands result w)).
Proof.
  induction cands as [|h rest IH]; intros result w k e Hk Hret.
  - destruct k; discriminate Hk.
  - rewrite and_chain_cons in *.
    destruct (fst (invoke h a w)); cbn in *.
    + destruct k as [|k]; cbn in Hk.
      * injection Hk as <-. discriminate Hret.
      * f_equal. eapply IH; eassumption.
    + destruct k as [|k]; [reflexivity|].
      destruct k; discriminate Hk.
Qed.

Lemma and_chain_true (cands : list H) :
  forall w,
    run_result (and_chain a invoke cands true w) = true <->
    hooks_called (and_chain a invoke cands true w) = cands /\
    Forall (fun e => ev_ret e = true)
           (run_calls (and_chain a invoke cands true w)).
Proof.
  induction cands as [|h rest IH]; intros w.
  - cbn. intuition.
  - rewrite and_chain_cons.
    destruct (fst (invoke h a w)); cbn.
    + rewrite IH. unfold hooks_called. split.
      * intros [Hhooks Hall]. split; [now f_equal | now constructor].
      * intros [Hhooks Hall]. inversion Hall; subst.
        split; [congruence | assumption].
    + split; [discriminate|].
      intros [_ Hall]. inversion Hall; subst. assumption.
Qed.

Lemma and_chain_false (cands : list H) :
  forall w,
    run_result (and_chain a invoke cands true w) = false <->
    exists pre e,
      run_calls (and_chain a invoke cands true w) = pre ++ [e] /\
      Forall (fun x => ev_ret x = true) pre /\
      ev_ret e = false.
Proof.
  induction cands as [|h rest IH]; intros w.
  - cbn. split; [discriminate|].
    intros (pre & e & Hcalls & _). destruct pre; discriminate Hcalls.
  - rewrite and_chain_cons.
    destruct (fst (invoke h a w)); cbn.
    + rewrite IH. split.
      * intros (pre & e & Hcalls & Hpre & He).
        exists (mk_call h a true :: pre), e. rewrite Hcalls.
        repeat split; [now constructor | assumption].
      * intros (pre & e & Hcalls & Hpre & He).
        destruct pre as [|c pre]; cbn in Hcalls.
        -- injection Hcalls as <- _. discriminate He.
        -- injection Hcalls as <- Hcalls. inversion Hpre; subst.
           exists pre, e. auto.
    + split; [|reflexivity]. intros _.
      exists [], (mk_call h a false). repeat split. constructor.
Qed.

Lemma and_chain_short_circuits (cands : list H) (w : world) :
  and_short_circuit invoke cands a w (and_chain a invoke cands true w).
Proof.
  constructor.
  - apply and_chain_hooks.
  - apply and_chain_args.
  - apply and_chain_genuine.
  - apply and_chain_running.
  - apply and_chain_stops.
  - apply and_chain_true.
  - apply and_chain_false.
  - intros ->. split; reflexivity.
Qed.

Lemma and_chain_prefix (cands : list H) (result : bool) (w : world) :
  prefix (hooks_called (and_chain a invoke cands result w)) cands.
Proof.
  rewrite and_chain_hooks.
  exists (skipn (length (run_calls (and_chain a invoke cands result w))) cands).
  symmetry. apply firstn_skipn.
Qed.

Lemma and_chain_keeps {B : Type} (obs : world -> B) :
  bool_keeps obs invoke ->
  forall cands result w,
    obs (run_world (and_chain a invoke cands result w)) = obs w.
Proof.
  intros Hkeeps.
  induction cands as [|h rest IH]; intros result w; [reflexivity|].
  rewrite and_chain_cons. specialize (Hkeeps h a w).
  destruct (fst (invoke h a w)); cbn; [rewrite IH|]; assumption.
Qed.

Lemma and_chain_blind (f : world -> world) :
  bool_blind f invoke ->
  forall cands result w,
    and_chain a invoke cands result (f w) =
    (let r := and_chain a invoke cands result w in
     mk_run (run_result r) (f (run_world r)) (run_calls r)).
Proof.
  intros Hblind.
  induction cands as [|h rest IH]; intros result w; [reflexivity|].
  rewrite !and_chain_cons. rewrite (Hblind h a w). cbn [fst snd].
  destruct (fst (invoke h a w)); [|reflexivity].
  rewrite IH. reflexivity.
Qed.

Lemma and_chain_alike (Rel : world -> world -> Prop) :
  bool_alike Rel invoke ->
  forall cands result w1 w2, Rel w1 w2 ->
    run_result (and_chain a invoke cands result w1) =
      run_result (and_chain a invoke cands result w2) /\
    run_calls (and_chain a invoke cands result w1) =
      run_calls (and_chain a invoke cands result w2) /\
    Rel (run_world (and_chain a invoke cands result w1))
        (run_world (and_chain a invoke cands result w2)).
Proof.
  intros Halike.
  induction cands as [|h rest IH]; intros result w1 w2 Hrel.
  - cbn. auto.
  - rewrite !and_chain_cons.
    destruct (Halike h a w1 w2 Hrel) as [Hret Hnext].
    rewrite <- Hret.
    destruct (fst (invoke h a w1)); cbn; [|auto].
    destruct (IH true _ _ Hnext) as (Hres & Hcalls & Hworld).
    repeat split; [assumption | now f_equal | assumption].
Qed.

End AndChain.

Section FanOut.

Variable invoke : H -> A -> world -> world.

Lemma fan_out_hooks (cands : list H) :
  forall w, hooks_called (fan_out a invoke cands w) = cands.
Proof.
  induction cands as [|h rest IH]; intros w; [reflexivity|].
  unfold hooks_called in *; cbn. f_equal. apply IH.
Qed.

Lemma fan_out_args (cands : list H) :
  forall w, passes_args a (fan_out a invoke cands w).
Proof.
  unfold passes_args.
  induction cands as [|h rest IH]; intros w; cbn; constructor;
    [reflexivity | apply IH].
Qed.

Lemma fan_out_genuine (cands : list H) :
  forall w,
    genuine (returning_tt invoke) (run_calls (fan_out a invoke cands w)) w
            (run_world (fan_out a invoke cands w)).
Proof.
  induction cands as [|h rest IH]; intros w; [reflexivity|].
  cbn. exists (invoke h a w). split; [reflexivity | apply IH].
Qed.

Lemma fan_out_fans_out (cands : list H) (w : world) :
  NoDup cands ->
  fans_out invoke cands a w (fan_out a invoke cands w).
Proof.
  intros Hnodup. constructor.
  - apply fan_out_hooks.
  - now rewrite fan_out_hooks.
  - apply fan_out_args.
  - apply fan_out_genuine.
  - intros ->. reflexivity.
Qed.

Lemma fan_out_keeps {B : Type} (obs : world -> B) :
  void_keeps obs invoke ->
  forall cands w, obs (run_world (fan_out a invoke cands w)) = obs w.
Proof.
  intros Hkeeps.
  induction cands as [|h rest IH]; intros w; [reflexivity|].
  cbn. rewrite IH. apply Hkeeps.
Qed.

Lemma fan_out_blind (f : world -> world) :
  void_blind f invoke ->
  forall cands w,
    fan_out a invoke cands (f w) =
    (let r := fan_out a invoke cands w in
     mk_run (run_result r) (f (run_world r)) (run_calls r)).
Proof.
  intros Hblind.
  induction cands as [|h rest IH]; intros w; [reflexivity|].
  cbn. rewrite Hblind, IH. reflexivity.
Qed.

Lemma fan_out_alike (Rel : world -> world -> Prop) :
  void_alike Rel invoke ->
  forall cands w1 w2, Rel w1 w2 ->
    run_result (fan_out a invoke cands w1) =
      run_result (fan_out a invoke cands w2) /\
    run_calls (fan_out a invoke cands w1) =
      run_calls (fan_out a invoke cands w2) /\
    Rel (run_world (fan_out a invoke cands w1))
        (run_world (fan_out a invoke cands w2)).
Proof.
  intros Halike.
  induction cands as [|h rest IH]; intros w1 w2 Hrel.
  - cbn. auto.
  - cbn.
    destruct (IH _ _ (Halike h a w1 w2 Hrel)) as (_ & Hcalls & Hworld).
    repeat split; [now f_equal | assumption].
Qed.

End FanOut.

End PolicyLemmas.

(** ** Lists of candidates *)

Lemma candidates_length {H : Type} (t : list (option H)) :
  (length (candidates t) <= length t)%nat.
Proof.
  induction t as [|[h|] t IH]; cbn; lia.
Qed.

Lemma prefix_length {X : Type} (l1 l2 : list X) :
  prefix l1 l2 -> (length l1 <= length l2)%nat.
Proof.
  intros [l3 ->]. rewrite length_app. lia.
Qed.

Lemma prefix_refl {X : Type} (l : list X) : prefix l l.
Proof. exists []. now rewrite app_nil_r. Qed.

Lemma prefix_Forall {X : Type} (P : X -> Prop) (l1 l2 : list X) :
  prefix l1 l2 -> Forall P l2 -> Forall P l1.
Proof.
  intros [l3 ->] Hall. apply Forall_app in Hall. tauto.
Qed.

Lemma prefix_sorted {X : Type} (lt : X -> X -> Prop) (l1 l2 : list X) :
  prefix l1 l2 -> StronglySorted lt l2 -> StronglySorted lt l1.
Proof.
  intros [l3 ->]. revert l3.
  induction l1 as [|x l1 IH]; intros l3 Hsorted; [constructor|].
  cbn in Hsorted. inversion Hsorted; subst.
  constructor; [eapply IH; eassumption|].
  eapply prefix_Forall; [|eassumption]. now exists l3.
Qed.

Lemma prefix_map {X Y : Type} (g : X -> Y) (l1 l2 : list X) :
  prefix l1 l2 -> prefix (map g l1) (map g l2).
Proof.
  intros [l3 ->]. exists (map g l3). apply map_app.
Qed.

(** ** From a policy to the properties of a dispatch *)

Section DispatchLemmas.

Context {world H A : Type}.
Variable t : list (option H).
Variable a : A.

Section Veto.

Variable invoke : H -> A -> world -> bool * world.
Variable o : world -> outcome (run world H A bool).
Hypothesis o_chain :
  forall w, o w = Done (and_chain a invoke (candidates t) true w).

Lemma veto_short_circuits (w : world) :
  and_short_circuit_dispatch invoke t a w (o w).
Proof.
  split; [apply o_chain|].
  eexists; split; [apply o_chain | apply and_chain_short_circuits].
Qed.

Lemma veto_safe (w : world) : safe_dispatch t (o w).
Proof.
  eexists; split; [apply o_chain|].
  pose proof (and_chain_prefix a invoke (candidates t) true w) as Hpre.
  split; [|exact Hpre].
  apply prefix_length in Hpre. unfold hooks_called in Hpre.
  rewrite length_map in Hpre.
  pose proof (candidates_length t). lia.
Qed.

Lemma veto_priority `{Hook H} (w : world) :
  in_priority_order (candidates t) -> fixed_priority_order t (o w).
Proof.
  intros Hsorted. split; [exact Hsorted|].
  eexists; split; [apply o_chain|].
  pose proof (and_chain_prefix a invoke (candidates t) true w) as Hpre.
  split; [exact Hpre|].
  eapply prefix_sorted; [apply prefix_map; exact Hpre | exact Hsorted].
Qed.

Lemma veto_enabled `{Hook H} (cfg : config) (w : world) :
  Forall (fun h => enabled_hook cfg h = true) (candidates t) ->
  exists r, o w = Done r /\
    Forall (fun h => enabled_hook cfg h = true) (hooks_called r).
Proof.
  intros Hall. eexists; split; [apply o_chain|].
  eapply prefix_Forall; [apply and_chain_prefix | exact Hall].
Qed.

Lemma veto_same_run (Rel : world -> world -> Prop) (w1 w2 : world) :
  bool_alike Rel invoke -> Rel w1 w2 -> same_run Rel (o w1) (o w2).
Proof.
  intros Halike Hrel.
  do 2 eexists. split; [apply o_chain|]. split; [apply o_chain|].
  now apply and_chain_alike.
Qed.

Lemma veto_pass_through {B : Type} (obs : world -> B) (f : world -> world)
    (w : world) :
  bool_keeps obs invoke -> bool_blind f invoke ->
  pass_through obs f a w (o w) (o (f w)).
Proof.
  intros Hkeeps Hblind.
  eexists; split; [apply o_chain|].
  split; [apply and_chain_args|].
  split; [now apply and_chain_keeps|].
  rewrite !o_chain. cbn. f_equal. now apply and_chain_blind.
Qed.

End Veto.

Section Notify.

Variable invoke : H -> A -> world -> world.
Variable o : world -> outcome (run world H A unit).
Hypothesis o_fan_out :
  forall w, o w = Done (fan_out a invoke (candidates t) w).

Lemma notify_fans_out (w : world) :
  NoDup (candidates t) -> fan_out_dispatch invoke t a w (o w).
Proof.
  intros Hnodup. split; [apply o_fan_out|].
  eexists; split; [apply o_fan_out | now apply fan_out_fans_out].
Qed.

Lemma notify_safe (w : world) : safe_dispatch t (o w).
Proof.
  eexists; split; [apply o_fan_out|].
  pose proof (f_equal (@length H) (fan_out_hooks a invoke (candidates t) w))
    as Hlen.
  unfold hooks_called in Hlen. rewrite length_map in Hlen.
  split.
  - pose proof (candidates_length t). lia.
  - rewrite fan_out_hooks. apply prefix_refl.
Qed.

Lemma notify_priority `{Hook H} (w : world) :
  in_priority_order (candidates t) -> fixed_priority_order t (o w).
Proof.
  intros Hsorted. split; [exact Hsorted|].
  eexists; split; [apply o_fan_out|].
  rewrite fan_out_hooks. split; [apply prefix_refl | exact Hsorted].
Qed.

Lemma notify_enabled `{Hook H} (cfg : config) (w : world) :
  Forall (fun h => enabled_hook cfg h = true) (candidates t) ->
  exists r, o w = Done r /\
    Forall (fun h => enabled_hook cfg h = true) (hooks_called r).
Proof.
  intros Hall. eexists; split; [apply o_fan_out|].
  now rewrite fan_out_hooks.
Qed.

Lemma notify_same_run (Rel : world -> world -> Prop) (w1 w2 : world) :
  void_alike Rel invoke -> Rel w1 w2 -> same_run Rel (o w1) (o w2).
Proof.
  intros Halike Hrel.
  do 2 eexists. split; [apply o_fan_out|]. split; [apply o_fan_out|].
  now apply fan_out_alike.
Qed.

Lemma notify_pass_through {B : Type} (obs : world -> B) (f : world -> world)
    (w : world) :
  void_keeps obs invoke -> void_blind f invoke ->
  pass_through obs f a w (o w) (o (f w)).
Proof.
  intros Hkeeps Hblind.
  eexists; split; [apply o_fan_out|].
  split; [apply fan_out_args|].
  split; [now apply fan_out_keeps|].
  rewrite !o_fan_out. cbn. f_equal. now apply fan_out_blind.
Qed.

End Notify.

End DispatchLemmas.

(** ** Facts about the nine tables, by inspection of the 16 configurations *)

Section Tables.

Variable cfg : config.

Lemma m_abort_hooks_small : ARRAY_SIZE (m_abort_hooks cfg) < UINT32_MOD.
Proof. each_config cfg; reflexivity. Qed.

Lemma m_pre_transmission_hooks_small :
  ARRAY_SIZE (m_pre_transmission_hooks cfg) < UINT32_MOD.
Proof. each_config cfg; reflexivity. Qed.

Lemma m_transmission_ready_hooks_small :
  ARRAY_SIZE (m_transmission_ready_hooks cfg) < UINT32_MOD.
Proof. reflexivity. Qed.

Lemma m_transmitted_hooks_small :
  ARRAY_SIZE (m_transmitted_hooks cfg) < UINT32_MOD.
Proof. each_config cfg; reflexivity. Qed.

Lemma m_tx_failed_hooks_small :
  ARRAY_SIZE (m_tx_failed_hooks cfg) < UINT32_MOD.
Proof. each_config cfg; reflexivity. Qed.

Lemma m_tx_started_hooks_small :
  ARRAY_SIZE (m_tx_started_hooks cfg) < UINT32_MOD.
Proof. each_config cfg; reflexivity. Qed.

Lemma m_rx_started_hooks_small :
  ARRAY_SIZE (m_rx_started_hooks cfg) < UINT32_MOD.
Proof. each_config cfg; reflexivity. Qed.

Lemma m_rx_ack_started_hooks_small :
  ARRAY_SIZE (m_rx_ack_started_hooks cfg) < UINT32_MOD.
Proof. each_config cfg; reflexivity. Qed.

Lemma m_prio_changed_hooks_small :
  ARRAY_SIZE (m_prio_changed_hooks cfg) < UINT32_MOD.
Proof. each_config cfg; reflexivity. Qed.

Lemma tables_in_priority_order :
  in_priority_order (candidates (m_abort_hooks cfg)) /\
  in_priority_order (candidates (m_pre_transmission_hooks cfg)) /\
  in_priority_order (candidates (m_transmission_ready_hooks cfg)) /\
  in_priority_order (candidates (m_transmitted_hooks cfg)) /\
  in_priority_order (candidates (m_tx_failed_hooks cfg)) /\
  in_priority_order (candidates (m_tx_started_hooks cfg)) /\
  in_priority_order (candidates (m_rx_started_hooks cfg)) /\
  in_priority_order (candidates (m_rx_ack_started_hooks cfg)) /\
  in_priority_order (candidates (m_prio_changed_hooks cfg)).
Proof.
  unfold in_priority_order.
  each_config cfg; cbn; repeat split; sorted_by_priority.
Qed.

Lemma notify_tables_distinct :
  NoDup (candidates (m_transmission_ready_hooks cfg)) /\
  NoDup (candidates (m_transmitted_hooks cfg)) /\
  NoDup (candidates (m_rx_started_hooks cfg)) /\
  NoDup (candidates (m_rx_ack_started_hooks cfg)) /\
  NoDup (candidates (m_prio_changed_hooks cfg)).
Proof.
  each_config cfg; cbn; repeat split; distinct_entries.
Qed.

Lemma tables_filtered :
  m_abort_hooks cfg = filter (entry_enabled cfg) (m_abort_hooks all_features) /\
  m_pre_transmission_hooks cfg =
    filter (entry_enabled cfg) (m_pre_transmission_hooks all_features) /\
  m_transmission_ready_hooks cfg =
    filter (entry_enabled cfg) (m_transmission_ready_hooks all_features) /\
  m_transmitted_hooks cfg =
    filter (entry_enabled cfg) (m_transmitted_hooks all_features) /\
  m_tx_failed_hooks cfg =
    filter (entry_enabled cfg) (m_tx_failed_hooks all_features) /\
  m_tx_started_hooks cfg =
    filter (entry_enabled cfg) (m_tx_started_hooks all_features) /\
  m_rx_started_hooks cfg =
    filter (entry_enabled cfg) (m_rx_started_hooks all_features) /\
  m_rx_ack_started_hooks cfg =
    filter (entry_enabled cfg) (m_rx_ack_started_hooks all_features) /\
  m_prio_changed_hooks cfg =
    filter (entry_enabled cfg) (m_prio_changed_hooks all_features).
Proof.
  each_config cfg; repeat split; reflexivity.
Qed.

Lemma candidates_filtered :
  candidates (m_abort_hooks cfg) =
    filter (enabled_hook cfg) (candidates (m_abort_hooks all_features)) /\
  candidates (m_pre_transmission_hooks cfg) =
    filter (enabled_hook cfg) (candidates (m_pre_transmission_hooks all_features)) /\
  candidates (m_transmission_ready_hooks cfg) =
    filter (enabled_hook cfg) (candidates (m_transmission_ready_hooks all_features)) /\
  candidates (m_transmitted_hooks cfg) =
    filter (enabled_hook cfg) (candidates (m_transmitted_hooks all_features)) /\
  candidates (m_tx_failed_hooks cfg) =
    filter (enabled_hook cfg) (candidates (m_tx_failed_hooks all_features)) /\
  candidates (m_tx_started_hooks cfg) =
    filter (enabled_hook cfg) (candidates (m_tx_started_hooks all_features)) /\
  candidates (m_rx_started_hooks cfg) =
    filter (enabled_hook cfg) (candidates (m_rx_started_hooks all_features)) /\
  candidates (m_rx_ack_started_hooks cfg) =
    filter (enabled_hook cfg) (candidates (m_rx_ack_started_hooks all_features)) /\
  candidates (m_prio_changed_hooks cfg) =
    filter (enabled_hook cfg) (candidates (m_prio_changed_hooks all_features)).
Proof.
  each_config cfg; repeat split; reflexivity.
Qed.

Lemma candidates_enabled :
  Forall (fun h => enabled_hook cfg h = true) (candidates (m_abort_hooks cfg)) /\
  Forall (fun h => enabled_hook cfg h = true) (candidates (m_pre_transmission_hooks cfg)) /\
  Forall (fun h => enabled_hook cfg h = true) (candidates (m_transmission_ready_hooks cfg)) /\
  Forall (fun h => enabled_hook cfg h = true) (candidates (m_transmitted_hooks cfg)) /\
  Forall (fun h => enabled_hook cfg h = true) (candidates (m_tx_failed_hooks cfg)) /\
  Forall (fun h => enabled_hook cfg h = true) (candidates (m_tx_started_hooks cfg)) /\
  Forall (fun h => enabled_hook cfg h = true) (candidates (m_rx_started_hooks cfg)) /\
  Forall (fun h => enabled_hook cfg h = true) (candidates (m_rx_ack_started_hooks cfg)) /\
  Forall (fun h => enabled_hook cfg h = true) (candidates (m_prio_changed_hooks cfg)).
Proof.
  each_config cfg; cbn; repeat split; repeat constructor.
Qed.

End Tables.

(** ** Every entry point computes its policy over its table *)

Section EntryPoints.

Context {frame_ptr nrf_802154_term_t req_originator_t
         nrf_802154_tx_error_t nrf_802154_transmit_failed_notify_t
         world : Type}.

Variable E : mac_features frame_ptr nrf_802154_term_t req_originator_t
               nrf_802154_tx_error_t nrf_802154_transmit_failed_notify_t world.
Variable cfg : config.

Lemma terminate_chain term_lvl req_orig w :
  nrf_802154_core_hooks_terminate E cfg term_lvl req_orig w =
  Done (and_chain (term_lvl, req_orig) (abort_invoke E)
          (candidates (m_abort_hooks cfg)) true w).
Proof. apply bool_walk, m_abort_hooks_small. Qed.

Lemma pre_transmission_chain p_frame cca notify_function w :
  nrf_802154_core_hooks_pre_transmission E cfg p_frame cca notify_function w =
  Done (and_chain (p_frame, cca, notify_function) (pre_transmission_invoke E)
          (candidates (m_pre_transmission_hooks cfg)) true w).
Proof. apply bool_walk, m_pre_transmission_hooks_small. Qed.

Lemma transmission_ready_fan_out p_frame ready w :
  nrf_802154_core_hooks_transmission_ready E cfg p_frame ready w =
  Done (fan_out (p_frame, ready) (transmission_ready_invoke E)
          (candidates (m_transmission_ready_hooks cfg)) w).
Proof.
  unfold nrf_802154_core_hooks_transmission_ready.
  rewrite Z.mod_small.
  - apply void_walk, m_transmission_ready_hooks_small.
  - split; [apply Nat2Z.is_nonneg | apply m_transmission_ready_hooks_small].
Qed.

Lemma transmitted_fan_out p_frame w :
  nrf_802154_core_hooks_transmitted E cfg p_frame w =
  Done (fan_out p_frame (transmitted_fn E)
          (candidates (m_transmitted_hooks cfg)) w).
Proof. apply void_walk, m_transmitted_hooks_small. Qed.

Lemma tx_failed_chain p_frame error w :
  nrf_802154_core_hooks_tx_failed E cfg p_frame error w =
  Done (and_chain (p_frame, error) (tx_failed_invoke E)
          (candidates (m_tx_failed_hooks cfg)) true w).
Proof. apply bool_walk, m_tx_failed_hooks_small. Qed.

Lemma tx_started_chain p_frame w :
  nrf_802154_core_hooks_tx_started E cfg p_frame w =
  Done (and_chain p_frame (tx_started_fn E)
          (candidates (m_tx_started_hooks cfg)) true w).
Proof. apply bool_walk, m_tx_started_hooks_small. Qed.

Lemma rx_started_fan_out p_frame w :
  nrf_802154_core_hooks_rx_started E cfg p_frame w =
  Done (fan_out p_frame (rx_started_fn E)
          (candidates (m_rx_started_hooks cfg)) w).
Proof. apply void_walk, m_rx_started_hooks_small. Qed.

Lemma rx_ack_started_fan_out w :
  nrf_802154_core_hooks_rx_ack_started E cfg w =
  Done (fan_out tt (rx_ack_started_invoke E)
          (candidates (m_rx_ack_started_hooks cfg)) w).
Proof. apply void_walk, m_rx_ack_started_hooks_small. Qed.

Lemma prio_changed_fan_out old_prio new_prio w :
  nrf_802154_core_hooks_prio_changed E cfg old_prio new_prio w =
  Done (fan_out (old_prio, new_prio) (prio_changed_invoke E)
          (candidates (m_prio_changed_hooks cfg)) w).
Proof. apply void_walk, m_prio_changed_hooks_small. Qed.

End EntryPoints.

#[local] Hint Resolve terminate_chain pre_transmission_chain
  transmission_ready_fan_out transmitted_fan_out tx_failed_chain
  tx_started_chain rx_started_fan_out rx_ack_started_fan_out
  prio_changed_fan_out : entry_points.

(** * Properties of the entry points *)

Section EngineProperties.

Context {frame_ptr nrf_802154_term_t req_originator_t
         nrf_802154_tx_error_t nrf_802154_transmit_failed_notify_t
         world : Type}.

Variable E : mac_features frame_ptr nrf_802154_term_t req_originator_t
               nrf_802154_tx_error_t nrf_802154_transmit_failed_notify_t world.
Variable cfg : config.

Variable term_lvl : nrf_802154_term_t.
Variable req_orig : req_originator_t.
Variable p_frame : frame_ptr.
Variables cca ready : bool.
Variable notify_function : nrf_802154_transmit_failed_notify_t.
Variable error : nrf_802154_tx_error_t.
Variables old_prio new_prio : Z.

(** C1. The four veto channels (terminate, pre_transmission, tx_failed,
    tx_started) follow the AND-short-circuit policy whatever the hooks
    return: the entry point computes [and_chain] over the candidates of
    its table, starting from [true]; the hooks called are the first
    candidates, in table order, each with the arguments of the entry point
    and with the return value it really gave; the result is the return
    value of the last call ([true] when there is none); a call that
    returned [false] is the last call; the result is [true] exactly when
    every candidate was called and returned [true], [false] exactly when
    the last call returned [false] after calls that all returned [true];
    with no candidate the result is [true] and nothing is called. *)
Theorem veto_channels_short_circuit (w : world) :
  and_short_circuit_dispatch (abort_invoke E) (m_abort_hooks cfg)
    (term_lvl, req_orig) w
    (nrf_802154_core_hooks_terminate E cfg term_lvl req_orig w) /\
  and_short_circuit_dispatch (pre_transmission_invoke E)
    (m_pre_transmission_hooks cfg) (p_frame, cca, notify_function) w
    (nrf_802154_core_hooks_pre_transmission E cfg p_frame cca notify_function w) /\
  and_short_circuit_dispatch (tx_failed_invoke E) (m_tx_failed_hooks cfg)
    (p_frame, error) w
    (nrf_802154_core_hooks_tx_failed E cfg p_frame error w) /\
  and_short_circuit_dispatch (tx_started_fn E) (m_tx_started_hooks cfg)
    p_frame w
    (nrf_802154_core_hooks_tx_started E cfg p_frame w).
Proof.
  conjuncts; apply veto_short_circuits; auto with entry_points.
Qed.

(** C2. The five notification channels (transmission_ready, transmitted,
    rx_started, rx_ack_started, prio_changed) fan out whatever the hooks
    do: the entry point computes [fan_out] over the candidates of its
    table; the hooks called are exactly the candidates, in table order,
    none of them twice, each with the arguments of the entry point; with
    no candidate nothing is called and the entry point still returns. *)
Theorem notify_channels_fan_out (w : world) :
  fan_out_dispatch (transmission_ready_invoke E)
    (m_transmission_ready_hooks cfg) (p_frame, ready) w
    (nrf_802154_core_hooks_transmission_ready E cfg p_frame ready w) /\
  fan_out_dispatch (transmitted_fn E) (m_transmitted_hooks cfg) p_frame w
    (nrf_802154_core_hooks_transmitted E cfg p_frame w) /\
  fan_out_dispatch (rx_started_fn E) (m_rx_started_hooks cfg) p_frame w
    (nrf_802154_core_hooks_rx_started E cfg p_frame w) /\
  fan_out_dispatch (rx_ack_started_invoke E) (m_rx_ack_started_hooks cfg) tt w
    (nrf_802154_core_hooks_rx_ack_started E cfg w) /\
  fan_out_dispatch (prio_changed_invoke E) (m_prio_changed_hooks cfg)
    (old_prio, new_prio) w
    (nrf_802154_core_hooks_prio_changed E cfg old_prio new_prio w).
Proof.
  destruct (notify_tables_distinct cfg) as (? & ? & ? & ? & ?).
  conjuncts; apply notify_fans_out; auto with entry_points.
Qed.

(** C3, as amended. With the four feature flags off, pre_transmission,
    tx_failed and tx_started return [true] without calling any hook, and
    transmitted, rx_started, rx_ack_started and prio_changed call no
    hook; terminate makes exactly one call, to
    [nrf_802154_tx_timeout_abort], and returns what that hook returns;
    transmission_ready makes exactly one call, to
    [nrf_802154_tx_timeout_transmission_ready]. *)
Theorem zero_features_dispatch (w : world) :
  nrf_802154_core_hooks_terminate E no_features term_lvl req_orig w =
    (let verdict := abort_fn E nrf_802154_tx_timeout_abort term_lvl req_orig w in
     Done (mk_run (fst verdict) (snd verdict)
             [mk_call nrf_802154_tx_timeout_abort (term_lvl, req_orig)
                      (fst verdict)])) /\
  nrf_802154_core_hooks_pre_transmission E no_features p_frame cca
    notify_function w = Done (mk_run true w []) /\
  nrf_802154_core_hooks_transmission_ready E no_features p_frame ready w =
    Done (mk_run tt
            (transmission_ready_fn E nrf_802154_tx_timeout_transmission_ready
               p_frame ready w)
            [mk_call nrf_802154_tx_timeout_transmission_ready
                     (p_frame, ready) tt]) /\
  nrf_802154_core_hooks_transmitted E no_features p_frame w =
    Done (mk_run tt w []) /\
  nrf_802154_core_hooks_tx_failed E no_features p_frame error w =
    Done (mk_run true w []) /\
  nrf_802154_core_hooks_tx_started E no_features p_frame w =
    Done (mk_run true w []) /\
  nrf_802154_core_hooks_rx_started E no_features p_frame w =
    Done (mk_run tt w []) /\
  nrf_802154_core_hooks_rx_ack_started E no_features w =
    Done (mk_run tt w []) /\
  nrf_802154_core_hooks_prio_changed E no_features old_prio new_prio w =
    Done (mk_run tt w []).
Proof.
  conjuncts; try reflexivity.
  rewrite terminate_chain. cbn. unfold abort_invoke. cbn.
  destruct (abort_fn E nrf_802154_tx_timeout_abort term_lvl req_orig w)
    as [[] w']; reflexivity.
Qed.

(** C4. In every configuration and for every channel, the candidates of
    the table are listed by strictly increasing priority (CSMA/CA, ACK
    timeout, delayed TRX, IFS, transmit timeout), and every dispatch,
    whatever the state and the arguments, calls a prefix of that one
    list, hence in that same order. *)
Theorem dispatch_in_priority_order (w : world) :
  fixed_priority_order (m_abort_hooks cfg)
    (nrf_802154_core_hooks_terminate E cfg term_lvl req_orig w) /\
  fixed_priority_order (m_pre_transmission_hooks cfg)
    (nrf_802154_core_hooks_pre_transmission E cfg p_frame cca notify_function w) /\
  fixed_priority_order (m_transmission_ready_hooks cfg)
    (nrf_802154_core_hooks_transmission_ready E cfg p_frame ready w) /\
  fixed_priority_order (m_transmitted_hooks cfg)
    (nrf_802154_core_hooks_transmitted E cfg p_frame w) /\
  fixed_priority_order (m_tx_failed_hooks cfg)
    (nrf_802154_core_hooks_tx_failed E cfg p_frame error w) /\
  fixed_priority_order (m_tx_started_hooks cfg)
    (nrf_802154_core_hooks_tx_started E cfg p_frame w) /\
  fixed_priority_order (m_rx_started_hooks cfg)
    (nrf_802154_core_hooks_rx_started E cfg p_frame w) /\
  fixed_priority_order (m_rx_ack_started_hooks cfg)
    (nrf_802154_core_hooks_rx_ack_started E cfg w) /\
  fixed_priority_order (m_prio_changed_hooks cfg)
    (nrf_802154_core_hooks_prio_changed E cfg old_prio new_prio w).
Proof.
  destruct (tables_in_priority_order cfg)
    as (? & ? & ? & ? & ? & ? & ? & ? & ?).
  conjuncts;
    first [ eapply veto_priority | eapply notify_priority ];
    eauto with entry_points.
Qed.

(** C5. In every configuration and for every channel, the table is the
    full table without the entries of the disabled modules (the remaining
    entries keep their order, nothing stands in for a removed one), the
    candidate sequence is the full candidate sequence restricted to the
    enabled modules, and every hook a dispatch calls belongs to an enabled
    module; the length of a table depends on the configuration. *)
Theorem disabled_features_absent (w : world) :
  (only_enabled cfg m_abort_hooks
     (nrf_802154_core_hooks_terminate E cfg term_lvl req_orig w) /\
   only_enabled cfg m_pre_transmission_hooks
     (nrf_802154_core_hooks_pre_transmission E cfg p_frame cca notify_function w) /\
   only_enabled cfg m_transmission_ready_hooks
     (nrf_802154_core_hooks_transmission_ready E cfg p_frame ready w) /\
   only_enabled cfg m_transmitted_hooks
     (nrf_802154_core_hooks_transmitted E cfg p_frame w) /\
   only_enabled cfg m_tx_failed_hooks
     (nrf_802154_core_hooks_tx_failed E cfg p_frame error w) /\
   only_enabled cfg m_tx_started_hooks
     (nrf_802154_core_hooks_tx_started E cfg p_frame w) /\
   only_enabled cfg m_rx_started_hooks
     (nrf_802154_core_hooks_rx_started E cfg p_frame w) /\
   only_enabled cfg m_rx_ack_started_hooks
     (nrf_802154_core_hooks_rx_ack_started E cfg w) /\
   only_enabled cfg m_prio_changed_hooks
     (nrf_802154_core_hooks_prio_changed E cfg old_prio new_prio w)) /\
  length (m_abort_hooks no_features) = 1%nat /\
  length (m_abort_hooks all_features) = 5%nat.
Proof.
  destruct (tables_filtered cfg) as (? & ? & ? & ? & ? & ? & ? & ? & ?).
  destruct (candidates_filtered cfg) as (? & ? & ? & ? & ? & ? & ? & ? & ?).
  destruct (candidates_enabled cfg) as (? & ? & ? & ? & ? & ? & ? & ? & ?).
  split; [|split; reflexivity].
  conjuncts; (split; [assumption | split; [assumption|]]);
    first [ eapply veto_enabled | eapply notify_enabled ];
    eauto with entry_points.
Qed.

(** C6. In every configuration [nrf_802154_tx_timeout_abort] is the last
    entry of the abort table, which holds no NULL, so it is the final
    candidate of the terminate channel; and every call of
    [nrf_802154_core_hooks_transmission_ready] calls
    [nrf_802154_tx_timeout_transmission_ready] exactly once, with the
    arguments it was given, and nothing else. *)
Theorem tx_timeout_guard_unconditional (w : world) :
  (exists front,
     m_abort_hooks cfg = map Some (front ++ [nrf_802154_tx_timeout_abort]) /\
     candidates (m_abort_hooks cfg) = front ++ [nrf_802154_tx_timeout_abort]) /\
  nrf_802154_core_hooks_transmission_ready E cfg p_frame ready w =
    Done (mk_run tt
            (transmission_ready_fn E nrf_802154_tx_timeout_transmission_ready
               p_frame ready w)
            [mk_call nrf_802154_tx_timeout_transmission_ready
                     (p_frame, ready) tt]).
Proof.
  split; [|reflexivity].
  exists (removelast (candidates (m_abort_hooks cfg))).
  each_config cfg; split; reflexivity.
Qed.

(** C7. With CSMA/CA and ACK timeout on and delayed TRX and IFS off, the
    candidates of the terminate channel are [nrf_802154_csma_ca_abort],
    [nrf_802154_ack_timeout_abort], [nrf_802154_tx_timeout_abort] in this
    order; and whenever [nrf_802154_csma_ca_abort] returns [false],
    [nrf_802154_core_hooks_terminate] returns [false] having called
    [nrf_802154_csma_ca_abort] only. *)
Theorem scenario_csma_refuses_abort (w : world) :
  fst (abort_fn E nrf_802154_csma_ca_abort term_lvl req_orig w) = false ->
  candidates (m_abort_hooks csma_and_ack_timeout) =
    [nrf_802154_csma_ca_abort; nrf_802154_ack_timeout_abort;
     nrf_802154_tx_timeout_abort] /\
  nrf_802154_core_hooks_terminate E csma_and_ack_timeout term_lvl req_orig w =
    Done (mk_run false
            (snd (abort_fn E nrf_802154_csma_ca_abort term_lvl req_orig w))
            [mk_call nrf_802154_csma_ca_abort (term_lvl, req_orig) false]).
Proof.
  intros Hrefuses. split; [reflexivity|].
  rewrite terminate_chain. cbn. unfold abort_invoke at 1. cbn.
  destruct (abort_fn E nrf_802154_csma_ca_abort term_lvl req_orig w)
    as [verdict w'].
  cbn in Hrefuses. subst verdict. reflexivity.
Qed.

(** C8. The engine has no state of its own: for every channel, two
    dispatches with the same configuration and arguments, started in
    states in which the hooks behave alike (same return values, and alike
    again afterwards), both finish, make the same calls with the same
    return values, give the same result, and leave states in which the
    hooks still behave alike. *)
Theorem dispatch_deterministic (Rel : world -> world -> Prop) (w1 w2 : world) :
  hooks_alike E Rel ->
  Rel w1 w2 ->
  same_run Rel
    (nrf_802154_core_hooks_terminate E cfg term_lvl req_orig w1)
    (nrf_802154_core_hooks_terminate E cfg term_lvl req_orig w2) /\
  same_run Rel
    (nrf_802154_core_hooks_pre_transmission E cfg p_frame cca notify_function w1)
    (nrf_802154_core_hooks_pre_transmission E cfg p_frame cca notify_function w2) /\
  same_run Rel
    (nrf_802154_core_hooks_transmission_ready E cfg p_frame ready w1)
    (nrf_802154_core_hooks_transmission_ready E cfg p_frame ready w2) /\
  same_run Rel
    (nrf_802154_core_hooks_transmitted E cfg p_frame w1)
    (nrf_802154_core_hooks_transmitted E cfg p_frame w2) /\
  same_run Rel
    (nrf_802154_core_hooks_tx_failed E cfg p_frame error w1)
    (nrf_802154_core_hooks_tx_failed E cfg p_frame error w2) /\
  same_run Rel
    (nrf_802154_core_hooks_tx_started E cfg p_frame w1)
    (nrf_802154_core_hooks_tx_started E cfg p_frame w2) /\
  same_run Rel
    (nrf_802154_core_hooks_rx_started E cfg p_frame w1)
    (nrf_802154_core_hooks_rx_started E cfg p_frame w2) /\
  same_run Rel
    (nrf_802154_core_hooks_rx_ack_started E cfg w1)
    (nrf_802154_core_hooks_rx_ack_started E cfg w2) /\
  same_run Rel
    (nrf_802154_core_hooks_prio_changed E cfg old_prio new_prio w1)
    (nrf_802154_core_hooks_prio_changed E cfg old_prio new_prio w2).
Proof.
  intros (? & ? & ? & ? & ? & ? & ? & ? & ?) Hrel.
  conjuncts;
    first [ eapply veto_same_run | eapply notify_same_run ];
    eauto with entry_points.
Qed.

(** C9. For the six entry points that take a frame pointer, every hook
    called receives the frame pointer and the other arguments exactly as
    the entry point received them; whatever part of the state no hook
    changes (such as the bytes of the frame buffer) is the same after the
    dispatch as before; and a change of the state that no hook notices
    (such as other bytes in the frame buffer) changes neither the calls
    made nor the result, and is still in place afterwards. *)
Theorem frame_passed_through {B : Type} (obs : world -> B)
    (f : world -> world) (w : world) :
  frame_hooks_keep E obs ->
  frame_hooks_blind E f ->
  pass_through obs f (p_frame, cca, notify_function) w
    (nrf_802154_core_hooks_pre_transmission E cfg p_frame cca notify_function w)
    (nrf_802154_core_hooks_pre_transmission E cfg p_frame cca notify_function (f w)) /\
  pass_through obs f (p_frame, ready) w
    (nrf_802154_core_hooks_transmission_ready E cfg p_frame ready w)
    (nrf_802154_core_hooks_transmission_ready E cfg p_frame ready (f w)) /\
  pass_through obs f p_frame w
    (nrf_802154_core_hooks_transmitted E cfg p_frame w)
    (nrf_802154_core_hooks_transmitted E cfg p_frame (f w)) /\
  pass_through obs f (p_frame, error) w
    (nrf_802154_core_hooks_tx_failed E cfg p_frame error w)
    (nrf_802154_core_hooks_tx_failed E cfg p_frame error (f w)) /\
  pass_through obs f p_frame w
    (nrf_802154_core_hooks_tx_started E cfg p_frame w)
    (nrf_802154_core_hooks_tx_started E cfg p_frame (f w)) /\
  pass_through obs f p_frame w
    (nrf_802154_core_hooks_rx_started E cfg p_frame w)
    (nrf_802154_core_hooks_rx_started E cfg p_frame (f w)).
Proof.
  intros (? & ? & ? & ? & ? & ?) (? & ? & ? & ? & ? & ?).
  conjuncts;
    first [ eapply veto_pass_through | eapply notify_pass_through ];
    eauto with entry_points.
Qed.

(** C10. In every configuration every entry point finishes within the
    budget of one loop-condition evaluation per table element plus the
    failing one, without reading outside its table and without calling
    through NULL; it makes at most as many calls as the table has
    elements, and the hooks it calls are the leading entries of the
    table in front of the first NULL, so nothing behind a NULL is
    called. *)
Theorem dispatch_safe (w : world) :
  safe_dispatch (m_abort_hooks cfg)
    (nrf_802154_core_hooks_terminate E cfg term_lvl req_orig w) /\
  safe_dispatch (m_pre_transmission_hooks cfg)
    (nrf_802154_core_hooks_pre_transmission E cfg p_frame cca notify_function w) /\
  safe_dispatch (m_transmission_ready_hooks cfg)
    (nrf_802154_core_hooks_transmission_ready E cfg p_frame ready w) /\
  safe_dispatch (m_transmitted_hooks cfg)
    (nrf_802154_core_hooks_transmitted E cfg p_frame w) /\
  safe_dispatch (m_tx_failed_hooks cfg)
    (nrf_802154_core_hooks_tx_failed E cfg p_frame error w) /\
  safe_dispatch (m_tx_started_hooks cfg)
    (nrf_802154_core_hooks_tx_started E cfg p_frame w) /\
  safe_dispatch (m_rx_started_hooks cfg)
    (nrf_802154_core_hooks_rx_started E cfg p_frame w) /\
  safe_dispatch (m_rx_ack_started_hooks cfg)
    (nrf_802154_core_hooks_rx_ack_started E cfg w) /\
  safe_dispatch (m_prio_changed_hooks cfg)
    (nrf_802154_core_hooks_prio_changed E cfg old_prio new_prio w).
Proof.
  conjuncts;
    first [ eapply veto_safe | eapply notify_safe ];
    eauto with entry_points.
Qed.

End EngineProperties.

(** ** Evaluation on the sample feature modules *)

(** C3 as stated fails: with every feature flag off, terminate still
    consults [nrf_802154_tx_timeout_abort], so it does not return [true]
    when that hook refuses, and transmission_ready still calls
    [nrf_802154_tx_timeout_transmission_ready]. *)
Lemma zero_features_counterexample :
  ~ returns_true
      (nrf_802154_core_hooks_terminate (stub_features false) no_features
         0 0 (0%nat, 0)) /\
  ~ makes_no_call
      (nrf_802154_core_hooks_transmission_ready (stub_features true) no_features
         0 true (0%nat, 0)).
Proof.
  split; intros (r & Hrun & Hclaim);
    vm_compute in Hrun; injection Hrun as <-; discriminate Hclaim.
Qed.

(** The refusing stubs in the configuration of C7. *)
Lemma scenario_csma_refuses_abort_witness :
  fst (abort_fn (stub_features false) nrf_802154_csma_ca_abort 0 0 (0%nat, 0))
    = false /\
  nrf_802154_core_hooks_terminate (stub_features false) csma_and_ack_timeout
    0 0 (0%nat, 0) =
  Done (mk_run false (1%nat, 0)
          [mk_call nrf_802154_csma_ca_abort (0, 0) false]).
Proof.
  split; [reflexivity|].
  exact (proj2 (scenario_csma_refuses_abort (stub_features false) 0 0
                  (0%nat, 0) eq_refl)).
Defined.

(** Two dispatches of terminate whose states differ in the execution
    count only. *)
Lemma dispatch_deterministic_witness :
  hooks_alike (stub_features true) same_frame_byte /\
  same_frame_byte (0%nat, 7) (5%nat, 7) /\
  same_run same_frame_byte
    (nrf_802154_core_hooks_terminate (stub_features true) all_features
       0 0 (0%nat, 7))
    (nrf_802154_core_hooks_terminate (stub_features true) all_features
       0 0 (5%nat, 7)).
Proof.
  assert (Halike : hooks_alike (stub_features true) same_frame_byte)
    by (unfold hooks_alike; conjuncts; intros h a w1 w2 Hrel; cbn; auto).
  assert (Hrel : same_frame_byte (0%nat, 7) (5%nat, 7)) by reflexivity.
  split; [exact Halike|]. split; [exact Hrel|].
  exact (proj1 (dispatch_deterministic (stub_features true) all_features
                  0 0 0 true true tt 0 0 0 same_frame_byte
                  (0%nat, 7) (5%nat, 7) Halike Hrel)).
Defined.

(** pre_transmission before and after the frame byte is overwritten. *)
Lemma frame_passed_through_witness :
  frame_hooks_keep (stub_features true) snd /\
  frame_hooks_blind (stub_features true) (poke 9) /\
  pass_through snd (poke 9) (0, true, tt) (0%nat, 7)
    (nrf_802154_core_hooks_pre_transmission (stub_features true) all_features
       0 true tt (0%nat, 7))
    (nrf_802154_core_hooks_pre_transmission (stub_features true) all_features
       0 true tt (poke 9 (0%nat, 7))).
Proof.
  assert (Hkeep : frame_hooks_keep (stub_features true) (@snd nat Z))
    by (unfold frame_hooks_keep; conjuncts; intros h a w; reflexivity).
  assert (Hblind : frame_hooks_blind (stub_features true) (poke 9))
    by (unfold frame_hooks_blind; conjuncts; intros h a w; reflexivity).
  split; [exact Hkeep|]. split; [exact Hblind|].
  exact (proj1 (frame_passed_through (stub_features true) all_features
                  0 true true tt 0 snd (poke 9) (0%nat, 7) Hkeep Hblind)).
Defined.

(** * Further properties of the dispatch loops and entry points *)

(** ** Tables of any content *)

Lemma candidates_cut {H : Type} (front : list H) (back : list (option H)) :
  candidates (map Some front ++ None :: back) = front.
Proof.
  induction front as [|h front IH]; cbn; [reflexivity | now rewrite IH].
Qed.

Lemma candidates_full {H : Type} (front : list H) :
  candidates (map Some front) = front.
Proof.
  induction front as [|h front IH]; cbn; [reflexivity | now rewrite IH].
Qed.

(** X1. Whatever the table holds, provided it has fewer than 2^32
    elements: when its first NULL stands behind the hooks [front], both
    loops finish without fault and run their policy over [front] alone;
    the elements behind that NULL, hooks or not, play no part. *)
Theorem null_cuts_table {world H A : Type} (a : A)
    (veto : H -> A -> world -> bool * world)
    (notify : H -> A -> world -> world)
    (front : list H) (back : list (option H)) (w : world) :
  ARRAY_SIZE (map Some front ++ None :: back) < UINT32_MOD ->
  bool_hooks_loop (map Some front ++ None :: back)
    (ARRAY_SIZE (map Some front ++ None :: back)) a veto
    (budget (map Some front ++ None :: back)) 0 true w []
  = Done (and_chain a veto front true w) /\
  void_hooks_loop (map Some front ++ None :: back)
    (ARRAY_SIZE (map Some front ++ None :: back)) a notify
    (budget (map Some front ++ None :: back)) 0 w []
  = Done (fan_out a notify front w).
Proof.
  intros Hsmall. split.
  - rewrite bool_walk by exact Hsmall. now rewrite candidates_cut.
  - rewrite void_walk by exact Hsmall. now rewrite candidates_cut.
Qed.

(** X2. The NULL that closes a table is not needed by the loops: a table
    of hooks followed by one NULL and the same table without it give the
    same result, the same calls and the same final state, in both loops;
    without the NULL the loop ends on its bound. *)
Theorem closing_null_unused {world H A : Type} (a : A)
    (veto : H -> A -> world -> bool * world)
    (notify : H -> A -> world -> world)
    (hooks : list H) (w : world) :
  ARRAY_SIZE (map Some hooks ++ [None]) < UINT32_MOD ->
  bool_hooks_loop (map Some hooks ++ [None])
    (ARRAY_SIZE (map Some hooks ++ [None])) a veto
    (budget (map Some hooks ++ [None])) 0 true w []
  = bool_hooks_loop (map Some hooks) (ARRAY_SIZE (map Some hooks)) a veto
      (budget (map Some hooks)) 0 true w [] /\
  void_hooks_loop (map Some hooks ++ [None])
    (ARRAY_SIZE (map Some hooks ++ [None])) a notify
    (budget (map Some hooks ++ [None])) 0 w []
  = void_hooks_loop (map Some hooks) (ARRAY_SIZE (map Some hooks)) a notify
      (budget (map Some hooks)) 0 w [].
Proof.
  intros Hsmall.
  assert (Hshort : ARRAY_SIZE (map Some hooks) < UINT32_MOD).
  { unfold ARRAY_SIZE in *. rewrite length_app in Hsmall.
    cbn [length] in Hsmall. lia. }
  split.
  - rewrite !bool_walk by assumption.
    now rewrite candidates_cut, candidates_full.
  - rewrite !void_walk by assumption.
    now rewrite candidates_cut, candidates_full.
Qed.

(** ** How many hooks an entry point calls *)

Section CallCounts.

Context {world H A : Type}.
Variable a : A.

Lemma and_chain_calls_bounded (invoke : H -> A -> world -> bool * world)
    (cands : list H) (result : bool) (w : world) :
  (length (run_calls (and_chain a invoke cands result w)) <= length cands)%nat.
Proof.
  pose proof (prefix_length _ _ (and_chain_prefix a invoke cands result w)) as Hle.
  unfold hooks_called in Hle. now rewrite length_map in Hle.
Qed.

Lemma and_chain_calls_first (invoke : H -> A -> world -> bool * world)
    (cands : list H) (result : bool) (w : world) :
  cands <> [] ->
  (1 <= length (run_calls (and_chain a invoke cands result w)))%nat.
Proof.
  destruct cands as [|h rest]; [congruence|]. intros _.
  rewrite and_chain_cons.
  destruct (fst (invoke h a w)); cbn; lia.
Qed.

Lemma fan_out_calls_all (invoke : H -> A -> world -> world)
    (cands : list H) (w : world) :
  length (run_calls (fan_out a invoke cands w)) = length cands.
Proof.
  rewrite <- (fan_out_hooks a invoke cands w) at 2.
  unfold hooks_called. now rewrite length_map.
Qed.

Lemma veto_calls_between (invoke : H -> A -> world -> bool * world)
    (o : outcome (run world H A bool)) (cands : list H) (w : world)
    (lo hi : nat) :
  o = Done (and_chain a invoke cands true w) ->
  (length cands <= hi)%nat ->
  (lo = 0%nat \/ (lo = 1%nat /\ cands <> [])) ->
  calls_between lo hi o.
Proof.
  intros -> Hhi Hlo. eexists; split; [reflexivity|].
  pose proof (and_chain_calls_bounded invoke cands true w).
  split; [|lia].
  destruct Hlo as [-> | [-> Hne]]; [lia|].
  now apply and_chain_calls_first.
Qed.

Lemma notify_calls_exactly (invoke : H -> A -> world -> world)
    (o : outcome (run world H A unit)) (cands : list H) (w : world) (n : nat) :
  o = Done (fan_out a invoke cands w) ->
  length cands = n ->
  calls_between n n o.
Proof.
  intros -> <-. eexists; split; [reflexivity|].
  rewrite fan_out_calls_all. lia.
Qed.

End CallCounts.

Section EntryPointProperties.

Context {frame_ptr nrf_802154_term_t req_originator_t
         nrf_802154_tx_error_t nrf_802154_transmit_failed_notify_t
         world : Type}.

Variable E : mac_features frame_ptr nrf_802154_term_t req_originator_t
               nrf_802154_tx_error_t nrf_802154_transmit_failed_notify_t world.
Variable cfg : config.

Variable term_lvl : nrf_802154_term_t.
Variable req_orig : req_originator_t.
Variable p_frame : frame_ptr.
Variables cca ready : bool.
Variable notify_function : nrf_802154_transmit_failed_notify_t.
Variable error : nrf_802154_tx_error_t.
Variables old_prio new_prio : Z.

(** X3. Bounds on the work of one call, in every build and state:
    terminate calls at least one hook and at most one per optional
    feature built in plus one; pre_transmission, tx_failed and tx_started
    call at most two hooks, each at most as many as the build has of the
    two features concerned; the notification channels call exactly as
    many hooks as the build has of the features concerned
    (transmission_ready exactly one). *)
Theorem calls_per_dispatch (w : world) :
  calls_between 1 (features_enabled cfg + 1)
    (nrf_802154_core_hooks_terminate E cfg term_lvl req_orig w) /\
  calls_between 0
    (flag (NRF_802154_CSMA_CA_ENABLED cfg) + flag (NRF_802154_IFS_ENABLED cfg))
    (nrf_802154_core_hooks_pre_transmission E cfg p_frame cca notify_function w) /\
  calls_between 1 1
    (nrf_802154_core_hooks_transmission_ready E cfg p_frame ready w) /\
  calls_between
    (flag (NRF_802154_ACK_TIMEOUT_ENABLED cfg) + flag (NRF_802154_IFS_ENABLED cfg))
    (flag (NRF_802154_ACK_TIMEOUT_ENABLED cfg) + flag (NRF_802154_IFS_ENABLED cfg))
    (nrf_802154_core_hooks_transmitted E cfg p_frame w) /\
  calls_between 0
    (flag (NRF_802154_CSMA_CA_ENABLED cfg) +
     flag (NRF_802154_ACK_TIMEOUT_ENABLED cfg))
    (nrf_802154_core_hooks_tx_failed E cfg p_frame error w) /\
  calls_between 0
    (flag (NRF_802154_CSMA_CA_ENABLED cfg) +
     flag (NRF_802154_ACK_TIMEOUT_ENABLED cfg))
    (nrf_802154_core_hooks_tx_started E cfg p_frame w) /\
  calls_between
    (flag (NRF_802154_DELAYED_TRX_ENABLED cfg))
    (flag (NRF_802154_DELAYED_TRX_ENABLED cfg))
    (nrf_802154_core_hooks_rx_started E cfg p_frame w) /\
  calls_between
    (flag (NRF_802154_ACK_TIMEOUT_ENABLED cfg))
    (flag (NRF_802154_ACK_TIMEOUT_ENABLED cfg))
    (nrf_802154_core_hooks_rx_ack_started E cfg w) /\
  calls_between
    (flag (NRF_802154_CSMA_CA_ENABLED cfg))
    (flag (NRF_802154_CSMA_CA_ENABLED cfg))
    (nrf_802154_core_hooks_prio_changed E cfg old_prio new_prio w).
Proof.
  conjuncts.
  - eapply veto_calls_between; [apply terminate_chain | |].
    + each_config cfg; cbn; lia.
    + right. split; [reflexivity|]. each_config cfg; discriminate.
  - eapply veto_calls_between; [apply pre_transmission_chain | | now left].
    each_config cfg; cbn; lia.
  - eapply notify_calls_exactly; [apply transmission_ready_fan_out|].
    reflexivity.
  - eapply notify_calls_exactly; [apply transmitted_fan_out|].
    each_config cfg; reflexivity.
  - eapply veto_calls_between; [apply tx_failed_chain | | now left].
    each_config cfg; cbn; lia.
  - eapply veto_calls_between; [apply tx_started_chain | | now left].
    each_config cfg; cbn; lia.
  - eapply notify_calls_exactly; [apply rx_started_fan_out|].
    each_config cfg; reflexivity.
  - eapply notify_calls_exactly; [apply rx_ack_started_fan_out|].
    each_config cfg; reflexivity.
  - eapply notify_calls_exactly; [apply prio_changed_fan_out|].
    each_config cfg; reflexivity.
Qed.

(** X4. The three channels with a single optional hook: rx_started calls
    [nrf_802154_delayed_trx_rx_started_hook] once when delayed TRX is
    built in and does nothing otherwise; rx_ack_started does the same with
    [nrf_802154_ack_timeout_rx_ack_started_hook] and the ACK timeout flag,
    prio_changed with [nrf_802154_csma_ca_prio_changed_hook] and the
    CSMA/CA flag; the other flags make no difference. *)
Theorem single_hook_notifications (w : world) :
  nrf_802154_core_hooks_rx_started E cfg p_frame w =
    (if NRF_802154_DELAYED_TRX_ENABLED cfg then
       Done (mk_run tt
               (rx_started_fn E nrf_802154_delayed_trx_rx_started_hook p_frame w)
               [mk_call nrf_802154_delayed_trx_rx_started_hook p_frame tt])
     else Done (mk_run tt w [])) /\
  nrf_802154_core_hooks_rx_ack_started E cfg w =
    (if NRF_802154_ACK_TIMEOUT_ENABLED cfg then
       Done (mk_run tt
               (rx_ack_started_fn E nrf_802154_ack_timeout_rx_ack_started_hook w)
               [mk_call nrf_802154_ack_timeout_rx_ack_started_hook tt tt])
     else Done (mk_run tt w [])) /\
  nrf_802154_core_hooks_prio_changed E cfg old_prio new_prio w =
    (if NRF_802154_CSMA_CA_ENABLED cfg then
       Done (mk_run tt
               (prio_changed_fn E nrf_802154_csma_ca_prio_changed_hook
                  old_prio new_prio w)
               [mk_call nrf_802154_csma_ca_prio_changed_hook
                        (old_prio, new_prio) tt])
     else Done (mk_run tt w [])).
Proof.
  each_config cfg; conjuncts; reflexivity.
Qed.

(** X5. A granted termination is unanimous: when terminate returns
    [true], the abort hook of every module built in was called, each once
    and in table order, every one returned [true], the number of calls is
    the number of optional features built in plus one, and the last call
    is [nrf_802154_tx_timeout_abort] with the arguments of the entry
    point. *)
Theorem terminate_granted_unanimously (w : world)
    (r : run world abort_hook (nrf_802154_term_t * req_originator_t) bool) :
  nrf_802154_core_hooks_terminate E cfg term_lvl req_orig w = Done r ->
  run_result r = true ->
  hooks_called r = candidates (m_abort_hooks cfg) /\
  Forall (fun e => ev_ret e = true) (run_calls r) /\
  length (run_calls r) = (features_enabled cfg + 1)%nat /\
  exists front,
    run_calls r =
    front ++ [mk_call nrf_802154_tx_timeout_abort (term_lvl, req_orig) true].
Proof.
  rewrite terminate_chain. intros [= <-] Hgranted.
  set (r := and_chain (term_lvl, req_orig) (abort_invoke E)
              (candidates (m_abort_hooks cfg)) true w) in *.
  pose proof (and_chain_args (term_lvl, req_orig) (abort_invoke E)
                (candidates (m_abort_hooks cfg)) true w) as Hargs.
  apply and_chain_true in Hgranted. destruct Hgranted as [Hhooks Hall].
  fold r in Hhooks, Hall, Hargs.
  split; [exact Hhooks|]. split; [exact Hall|]. split.
  - rewrite <- (length_map ev_hook). fold (hooks_called r). rewrite Hhooks.
    each_config cfg; reflexivity.
  - assert (Hlast : exists front,
               candidates (m_abort_hooks cfg) =
               front ++ [nrf_802154_tx_timeout_abort])
      by (exists (removelast (candidates (m_abort_hooks cfg)));
          each_config cfg; reflexivity).
    destruct Hlast as [hooks_front Hlast].
    unfold hooks_called in Hhooks. rewrite Hlast in Hhooks.
    apply map_eq_app in Hhooks.
    destruct Hhooks as (front & tail & Hcalls & _ & Htail).
    destruct tail as [|e [|e' tail]]; try discriminate Htail.
    exists front. rewrite Hcalls. f_equal. f_equal.
    unfold passes_args in Hargs. rewrite Hcalls in Hargs, Hall.
    apply Forall_app in Hargs, Hall.
    destruct Hargs as [_ Hargs], Hall as [_ Hall].
    inversion Hargs; subst. inversion Hall; subst.
    destruct e as [h args ret]. cbn in *.
    injection Htail as ->. subst. reflexivity.
Qed.

End EntryPointProperties.

(** ** Builds compared *)

Section HeadOfChain.

Context {world H A : Type}.
Variable a : A.

Lemma veto_head_first (invoke : H -> A -> world -> bool * world)
    (o o_rest : world -> outcome (run world H A bool))
    (h : H) (rest : list H) (w : world) :
  (forall w, o w = Done (and_chain a invoke (h :: rest) true w)) ->
  (forall w, o_rest w = Done (and_chain a invoke rest true w)) ->
  o w =
  if fst (invoke h a w) then
    preceded_by (mk_call h a true) (o_rest (snd (invoke h a w)))
  else Done (mk_run false (snd (invoke h a w)) [mk_call h a false]).
Proof.
  intros Ho Hrest. rewrite Ho, Hrest, and_chain_cons.
  destruct (fst (invoke h a w)); reflexivity.
Qed.

Lemma notify_head_first (invoke : H -> A -> world -> world)
    (o o_rest : world -> outcome (run world H A unit))
    (h : H) (rest : list H) (w : world) :
  (forall w, o w = Done (fan_out a invoke (h :: rest) w)) ->
  (forall w, o_rest w = Done (fan_out a invoke rest w)) ->
  o w = preceded_by (mk_call h a tt) (o_rest (invoke h a w)).
Proof.
  intros Ho Hrest. rewrite Ho, Hrest. cbn [fan_out].
  destruct (fan_out a invoke rest (invoke h a w)) as [[] w1 calls].
  reflexivity.
Qed.

Lemma notify_enabled_of `{Hook H} (cfg : config)
    (invoke : H -> A -> world -> world)
    (o o' : outcome (run world H A unit)) (cands cands' : list H)
    (w w' : world) :
  o = Done (fan_out a invoke cands w) ->
  o' = Done (fan_out a invoke cands' w') ->
  cands = filter (enabled_hook cfg) cands' ->
  notifies_enabled_of cfg o o'.
Proof.
  intros -> -> Hfilter. do 2 eexists. split; [reflexivity|].
  split; [reflexivity|]. now rewrite !fan_out_hooks.
Qed.

End HeadOfChain.

Section CsmaTables.

Variable cfg : config.
Hypothesis csma_ca_on : NRF_802154_CSMA_CA_ENABLED cfg = true.

Lemma csma_ca_heads_tables :
  candidates (m_abort_hooks cfg) =
    nrf_802154_csma_ca_abort :: candidates (m_abort_hooks (without_csma_ca cfg)) /\
  candidates (m_pre_transmission_hooks cfg) =
    nrf_802154_csma_ca_pretransmission ::
    candidates (m_pre_transmission_hooks (without_csma_ca cfg)) /\
  candidates (m_tx_failed_hooks cfg) =
    nrf_802154_csma_ca_tx_failed_hook ::
    candidates (m_tx_failed_hooks (without_csma_ca cfg)) /\
  candidates (m_tx_started_hooks cfg) =
    nrf_802154_csma_ca_tx_started_hook ::
    candidates (m_tx_started_hooks (without_csma_ca cfg)) /\
  candidates (m_prio_changed_hooks cfg) =
    nrf_802154_csma_ca_prio_changed_hook ::
    candidates (m_prio_changed_hooks (without_csma_ca cfg)).
Proof.
  destruct cfg as [[] ack dtrx ifs]; [|discriminate csma_ca_on].
  conjuncts; reflexivity.
Qed.

End CsmaTables.

Section BuildsCompared.

Context {frame_ptr nrf_802154_term_t req_originator_t
         nrf_802154_tx_error_t nrf_802154_transmit_failed_notify_t
         world : Type}.

Variable E : mac_features frame_ptr nrf_802154_term_t req_originator_t
               nrf_802154_tx_error_t nrf_802154_transmit_failed_notify_t world.
Variables cfg cfg' : config.

Variable term_lvl : nrf_802154_term_t.
Variable req_orig : req_originator_t.
Variable p_frame : frame_ptr.
Variables cca ready : bool.
Variable notify_function : nrf_802154_transmit_failed_notify_t.
Variable error : nrf_802154_tx_error_t.
Variables old_prio new_prio : Z.

(** X6. An entry point looks only at the flags that guard entries of its
    own table: clearing every other flag of the build changes nothing of
    its result, calls and final state.  pre_transmission depends on the
    CSMA/CA and IFS flags, transmitted on ACK timeout and IFS, tx_failed
    and tx_started on CSMA/CA and ACK timeout, rx_started on delayed TRX,
    rx_ack_started on ACK timeout, prio_changed on CSMA/CA, and
    transmission_ready on no flag at all. *)
Theorem other_flags_ignored (w : world) :
  nrf_802154_core_hooks_pre_transmission E cfg p_frame cca notify_function w =
  nrf_802154_core_hooks_pre_transmission E (restrict_to [CSMA_CA; IFS] cfg)
    p_frame cca notify_function w /\
  nrf_802154_core_hooks_transmission_ready E cfg p_frame ready w =
  nrf_802154_core_hooks_transmission_ready E no_features p_frame ready w /\
  nrf_802154_core_hooks_transmitted E cfg p_frame w =
  nrf_802154_core_hooks_transmitted E (restrict_to [ACK_TIMEOUT; IFS] cfg)
    p_frame w /\
  nrf_802154_core_hooks_tx_failed E cfg p_frame error w =
  nrf_802154_core_hooks_tx_failed E (restrict_to [CSMA_CA; ACK_TIMEOUT] cfg)
    p_frame error w /\
  nrf_802154_core_hooks_tx_started E cfg p_frame w =
  nrf_802154_core_hooks_tx_started E (restrict_to [CSMA_CA; ACK_TIMEOUT] cfg)
    p_frame w /\
  nrf_802154_core_hooks_rx_started E cfg p_frame w =
  nrf_802154_core_hooks_rx_started E (restrict_to [DELAYED_TRX] cfg) p_frame w /\
  nrf_802154_core_hooks_rx_ack_started E cfg w =
  nrf_802154_core_hooks_rx_ack_started E (restrict_to [ACK_TIMEOUT] cfg) w /\
  nrf_802154_core_hooks_prio_changed E cfg old_prio new_prio w =
  nrf_802154_core_hooks_prio_changed E (restrict_to [CSMA_CA] cfg)
    old_prio new_prio w.
Proof.
  each_config cfg; conjuncts; reflexivity.
Qed.

(** X7. Building in more features never drops a notification: when every
    feature of the build [cfg] is also in the build [cfg'], the hooks a
    notification channel calls in [cfg] are, in the same order, those it
    calls in [cfg'] whose module is enabled in [cfg], whatever the two
    states. *)
Theorem notifications_grow_with_build (w w' : world) :
  config_sub cfg cfg' = true ->
  notifies_enabled_of cfg
    (nrf_802154_core_hooks_transmission_ready E cfg p_frame ready w)
    (nrf_802154_core_hooks_transmission_ready E cfg' p_frame ready w') /\
  notifies_enabled_of cfg
    (nrf_802154_core_hooks_transmitted E cfg p_frame w)
    (nrf_802154_core_hooks_transmitted E cfg' p_frame w') /\
  notifies_enabled_of cfg
    (nrf_802154_core_hooks_rx_started E cfg p_frame w)
    (nrf_802154_core_hooks_rx_started E cfg' p_frame w') /\
  notifies_enabled_of cfg
    (nrf_802154_core_hooks_rx_ack_started E cfg w)
    (nrf_802154_core_hooks_rx_ack_started E cfg' w') /\
  notifies_enabled_of cfg
    (nrf_802154_core_hooks_prio_changed E cfg old_prio new_prio w)
    (nrf_802154_core_hooks_prio_changed E cfg' old_prio new_prio w').
Proof.
  intros Hsub.
  conjuncts; eapply notify_enabled_of; eauto with entry_points;
    revert Hsub; each_config cfg; each_config cfg';
    intros Hsub; try discriminate Hsub; reflexivity.
Qed.

(** X8. CSMA/CA, when built in, is consulted first in each of its five
    channels, and the rest of the dispatch is the dispatch of the build
    without CSMA/CA, run in the state the CSMA/CA hook left: if the hook
    refuses, the veto channel returns [false] after that single call;
    otherwise the entry point continues as in the build without CSMA/CA. *)
Theorem csma_ca_consulted_first (w : world) :
  NRF_802154_CSMA_CA_ENABLED cfg = true ->
  nrf_802154_core_hooks_terminate E cfg term_lvl req_orig w =
    (let verdict := abort_fn E nrf_802154_csma_ca_abort term_lvl req_orig w in
     if fst verdict then
       preceded_by (mk_call nrf_802154_csma_ca_abort (term_lvl, req_orig) true)
         (nrf_802154_core_hooks_terminate E (without_csma_ca cfg)
            term_lvl req_orig (snd verdict))
     else
       Done (mk_run false (snd verdict)
               [mk_call nrf_802154_csma_ca_abort (term_lvl, req_orig) false])) /\
  nrf_802154_core_hooks_pre_transmission E cfg p_frame cca notify_function w =
    (let verdict := pre_transmission_fn E nrf_802154_csma_ca_pretransmission
                      p_frame cca notify_function w in
     if fst verdict then
       preceded_by
         (mk_call nrf_802154_csma_ca_pretransmission
                  (p_frame, cca, notify_function) true)
         (nrf_802154_core_hooks_pre_transmission E (without_csma_ca cfg)
            p_frame cca notify_function (snd verdict))
     else
       Done (mk_run false (snd verdict)
               [mk_call nrf_802154_csma_ca_pretransmission
                        (p_frame, cca, notify_function) false])) /\
  nrf_802154_core_hooks_tx_failed E cfg p_frame error w =
    (let verdict := tx_failed_fn E nrf_802154_csma_ca_tx_failed_hook
                      p_frame error w in
     if fst verdict then
       preceded_by
         (mk_call nrf_802154_csma_ca_tx_failed_hook (p_frame, error) true)
         (nrf_802154_core_hooks_tx_failed E (without_csma_ca cfg)
            p_frame error (snd verdict))
     else
       Done (mk_run false (snd verdict)
               [mk_call nrf_802154_csma_ca_tx_failed_hook
                        (p_frame, error) false])) /\
  nrf_802154_core_hooks_tx_started E cfg p_frame w =
    (let verdict := tx_started_fn E nrf_802154_csma_ca_tx_started_hook
                      p_frame w in
     if fst verdict then
       preceded_by (mk_call nrf_802154_csma_ca_tx_started_hook p_frame true)
         (nrf_802154_core_hooks_tx_started E (without_csma_ca cfg)
            p_frame (snd verdict))
     else
       Done (mk_run false (snd verdict)
               [mk_call nrf_802154_csma_ca_tx_started_hook p_frame false])) /\
  nrf_802154_core_hooks_prio_changed E cfg old_prio new_prio w =
    preceded_by
      (mk_call nrf_802154_csma_ca_prio_changed_hook (old_prio, new_prio) tt)
      (nrf_802154_core_hooks_prio_changed E (without_csma_ca cfg)
         old_prio new_prio
         (prio_changed_fn E nrf_802154_csma_ca_prio_changed_hook
            old_prio new_prio w)).
Proof.
  intros Hcsma.
  destruct (csma_ca_heads_tables cfg Hcsma) as (Ha & Hp & Hf & Hs & Hc).
  cbv zeta. conjuncts.
  - apply (veto_head_first (term_lvl, req_orig) (abort_invoke E)
             (nrf_802154_core_hooks_terminate E cfg term_lvl req_orig)
             (nrf_802154_core_hooks_terminate E (without_csma_ca cfg)
                term_lvl req_orig)
             nrf_802154_csma_ca_abort
             (candidates (m_abort_hooks (without_csma_ca cfg)))).
    + intros w0. rewrite <- Ha. apply terminate_chain.
    + intros w0. apply terminate_chain.
  - apply (veto_head_first (p_frame, cca, notify_function)
             (pre_transmission_invoke E)
             (nrf_802154_core_hooks_pre_transmission E cfg
                p_frame cca notify_function)
             (nrf_802154_core_hooks_pre_transmission E (without_csma_ca cfg)
                p_frame cca notify_function)
             nrf_802154_csma_ca_pretransmission
             (candidates (m_pre_transmission_hooks (without_csma_ca cfg)))).
    + intros w0. rewrite <- Hp. apply pre_transmission_chain.
    + intros w0. apply pre_transmission_chain.
  - apply (veto_head_first (p_frame, error) (tx_failed_invoke E)
             (nrf_802154_core_hooks_tx_failed E cfg p_frame error)
             (nrf_802154_core_hooks_tx_failed E (without_csma_ca cfg)
                p_frame error)
             nrf_802154_csma_ca_tx_failed_hook
             (candidates (m_tx_failed_hooks (without_csma_ca cfg)))).
    + intros w0. rewrite <- Hf. apply tx_failed_chain.
    + intros w0. apply tx_failed_chain.
  - apply (veto_head_first p_frame (tx_started_fn E)
             (nrf_802154_core_hooks_tx_started E cfg p_frame)
             (nrf_802154_core_hooks_tx_started E (without_csma_ca cfg) p_frame)
             nrf_802154_csma_ca_tx_started_hook
             (candidates (m_tx_started_hooks (without_csma_ca cfg)))).
    + intros w0. rewrite <- Hs. apply tx_started_chain.
    + intros w0. apply tx_started_chain.
  - apply (notify_head_first (old_prio, new_prio) (prio_changed_invoke E)
             (nrf_802154_core_hooks_prio_changed E cfg old_prio new_prio)
             (nrf_802154_core_hooks_prio_changed E (without_csma_ca cfg)
                old_prio new_prio)
             nrf_802154_csma_ca_prio_changed_hook
             (candidates (m_prio_changed_hooks (without_csma_ca cfg)))).
    + intros w0. rewrite <- Hc. apply prio_changed_fan_out.
    + intros w0. apply prio_changed_fan_out.
Qed.

End BuildsCompared.

(** ** Who was consulted *)

Section Reach.

Context {world H A : Type} `{Hook H}.
Variable a : A.

Lemma sorted_front_before (front : list H) (h : H) (back : list H) :
  in_priority_order (front ++ h :: back) ->
  Forall (fun h' => before (hook_module h') (hook_module h)) front /\
  Forall (fun h' => before (hook_module h) (hook_module h')) back.
Proof.
  unfold in_priority_order.
  induction front as [|x front IH]; cbn; intros Hsorted;
    inversion Hsorted as [|? ? Htail Hhead]; subst.
  - split; [constructor|].
    now rewrite Forall_map in Hhead.
  - destruct (IH Htail) as [Hfront Hback]. split; [|exact Hback].
    constructor; [|exact Hfront].
    rewrite map_app, Forall_app in Hhead. destruct Hhead as [_ Hhead].
    now inversion Hhead.
Qed.

Lemma filter_up_to (front : list H) (h : H) (back : list H) :
  in_priority_order (front ++ h :: back) ->
  filter (up_to h) (front ++ h :: back) = front ++ [h].
Proof.
  intros Hsorted.
  destruct (sorted_front_before front h back Hsorted) as [Hfront Hback].
  rewrite filter_app. cbn [filter]. unfold up_to at 2.
  rewrite Nat.leb_refl. f_equal; [|f_equal].
  - clear Hsorted Hback. induction Hfront as [|x front Hx _ IH]; [reflexivity|].
    cbn. unfold up_to at 1.
    replace (priority (hook_module x) <=? priority (hook_module h))%nat
      with true by (symmetry; apply Nat.leb_le; unfold before in Hx; lia).
    now rewrite IH.
  - clear Hsorted Hfront. induction Hback as [|x back Hx _ IH]; [reflexivity|].
    cbn. unfold up_to at 1.
    replace (priority (hook_module x) <=? priority (hook_module h))%nat
      with false by (symmetry; apply Nat.leb_gt; unfold before in Hx; lia).
    exact IH.
Qed.

Lemma veto_granted_or_refused (invoke : H -> A -> world -> bool * world)
    (t : list (option H)) (o : outcome (run world H A bool)) (w : world) :
  o = Done (and_chain a invoke (candidates t) true w) ->
  in_priority_order (candidates t) ->
  granted_or_refused_at t o.
Proof.
  intros -> Hsorted. eexists; split; [reflexivity|].
  set (r := and_chain a invoke (candidates t) true w).
  destruct (run_result r) eqn:Hresult.
  - left. split; [reflexivity|]. now apply and_chain_true in Hresult.
  - right. split; [reflexivity|].
    pose proof (and_chain_prefix a invoke (candidates t) true w) as [back Hback].
    apply and_chain_false in Hresult.
    destruct Hresult as (front & e & Hcalls & _ & Hrefused).
    exists front, e. fold r in Hcalls, Hback.
    split; [exact Hcalls|]. split; [exact Hrefused|].
    unfold hooks_called in *. rewrite Hcalls, map_app in *. cbn [map] in *.
    rewrite Hback in Hsorted |- *. rewrite <- app_assoc in Hsorted |- *.
    symmetry. now apply filter_up_to.
Qed.

Lemma and_chain_conjunction (invoke : H -> A -> world -> bool * world) :
  stateless_verdict invoke ->
  forall cands w w0,
    run_result (and_chain a invoke cands true w) =
    forallb (fun h => fst (invoke h a w0)) cands.
Proof.
  intros Hstateless.
  induction cands as [|h rest IH]; intros w w0; [reflexivity|].
  rewrite and_chain_cons. cbn [forallb].
  rewrite (Hstateless h a w0 w).
  destruct (fst (invoke h a w)); cbn; [apply IH | reflexivity].
Qed.

Lemma veto_returns_conjunction (invoke : H -> A -> world -> bool * world)
    (t : list (option H)) (o : outcome (run world H A bool)) (w : world) :
  o = Done (and_chain a invoke (candidates t) true w) ->
  stateless_verdict invoke ->
  returns_conjunction invoke t a w o.
Proof.
  intros -> Hstateless. eexists; split; [reflexivity|].
  now apply and_chain_conjunction.
Qed.

End Reach.

Section Consulted.

Context {frame_ptr nrf_802154_term_t req_originator_t
         nrf_802154_tx_error_t nrf_802154_transmit_failed_notify_t
         world : Type}.

Variable E : mac_features frame_ptr nrf_802154_term_t req_originator_t
               nrf_802154_tx_error_t nrf_802154_transmit_failed_notify_t world.
Variable cfg : config.

Variable term_lvl : nrf_802154_term_t.
Variable req_orig : req_originator_t.
Variable p_frame : frame_ptr.
Variable cca : bool.
Variable notify_function : nrf_802154_transmit_failed_notify_t.
Variable error : nrf_802154_tx_error_t.

(** X9. Who is consulted by a veto channel: either the entry point
    returns [true] and every candidate of its table was called, or it
    returns [false], its last call is the one that returned [false], and
    the hooks called are exactly the candidates whose module comes, in
    priority order, up to and including the module that refused; the
    modules behind it are not consulted. *)
Theorem refusal_reaches_no_further (w : world) :
  granted_or_refused_at (m_abort_hooks cfg)
    (nrf_802154_core_hooks_terminate E cfg term_lvl req_orig w) /\
  granted_or_refused_at (m_pre_transmission_hooks cfg)
    (nrf_802154_core_hooks_pre_transmission E cfg p_frame cca notify_function w) /\
  granted_or_refused_at (m_tx_failed_hooks cfg)
    (nrf_802154_core_hooks_tx_failed E cfg p_frame error w) /\
  granted_or_refused_at (m_tx_started_hooks cfg)
    (nrf_802154_core_hooks_tx_started E cfg p_frame w).
Proof.
  destruct (tables_in_priority_order cfg)
    as (? & ? & _ & _ & ? & ? & _ & _ & _).
  conjuncts; eapply veto_granted_or_refused; eauto with entry_points.
Qed.

(** X10. When the verdict of every veto hook is independent of the
    state, the result of a veto channel is the conjunction of the
    verdicts of all candidates of its table, those that were not called
    included. *)
Theorem veto_result_is_conjunction (w : world) :
  stateless_verdicts E ->
  returns_conjunction (abort_invoke E) (m_abort_hooks cfg)
    (term_lvl, req_orig) w
    (nrf_802154_core_hooks_terminate E cfg term_lvl req_orig w) /\
  returns_conjunction (pre_transmission_invoke E)
    (m_pre_transmission_hooks cfg) (p_frame, cca, notify_function) w
    (nrf_802154_core_hooks_pre_transmission E cfg p_frame cca notify_function w) /\
  returns_conjunction (tx_failed_invoke E) (m_tx_failed_hooks cfg)
    (p_frame, error) w
    (nrf_802154_core_hooks_tx_failed E cfg p_frame error w) /\
  returns_conjunction (tx_started_fn E) (m_tx_started_hooks cfg) p_frame w
    (nrf_802154_core_hooks_tx_started E cfg p_frame w).
Proof.
  intros (? & ? & ? & ?).
  conjuncts; eapply veto_returns_conjunction; eauto with entry_points.
Qed.

End Consulted.

(** ** Evaluation of the further properties on the sample feature modules *)

(** A table with a hook behind a NULL. *)
Lemma null_cuts_table_witness :
  ARRAY_SIZE (map Some [nrf_802154_csma_ca_abort] ++
              None :: [Some nrf_802154_tx_timeout_abort]) < UINT32_MOD /\
  bool_hooks_loop
    (map Some [nrf_802154_csma_ca_abort] ++
     None :: [Some nrf_802154_tx_timeout_abort])
    (ARRAY_SIZE (map Some [nrf_802154_csma_ca_abort] ++
                 None :: [Some nrf_802154_tx_timeout_abort]))
    (0, 0) (abort_invoke (stub_features true))
    (budget (map Some [nrf_802154_csma_ca_abort] ++
             None :: [Some nrf_802154_tx_timeout_abort]))
    0 true (0%nat, 0) []
  = Done (mk_run true (1%nat, 0) [mk_call nrf_802154_csma_ca_abort (0, 0) true]).
Proof.
  split; [reflexivity|].
  exact (proj1 (null_cuts_table (0, 0) (abort_invoke (stub_features true))
                  (fun _ _ => stub_void) [nrf_802154_csma_ca_abort]
                  [Some nrf_802154_tx_timeout_abort] (0%nat, 0) eq_refl)).
Defined.

(** The tx_started table of the full build, with and without its NULL. *)
Lemma closing_null_unused_witness :
  ARRAY_SIZE (map Some [nrf_802154_csma_ca_tx_started_hook;
                        nrf_802154_ack_timeout_tx_started_hook] ++ [None])
    < UINT32_MOD /\
  bool_hooks_loop
    (map Some [nrf_802154_csma_ca_tx_started_hook;
               nrf_802154_ack_timeout_tx_started_hook] ++ [None])
    (ARRAY_SIZE (map Some [nrf_802154_csma_ca_tx_started_hook;
                           nrf_802154_ack_timeout_tx_started_hook] ++ [None]))
    0 (tx_started_fn (stub_features true))
    (budget (map Some [nrf_802154_csma_ca_tx_started_hook;
                       nrf_802154_ack_timeout_tx_started_hook] ++ [None]))
    0 true (0%nat, 0) []
  = bool_hooks_loop
      (map Some [nrf_802154_csma_ca_tx_started_hook;
                 nrf_802154_ack_timeout_tx_started_hook])
      (ARRAY_SIZE (map Some [nrf_802154_csma_ca_tx_started_hook;
                             nrf_802154_ack_timeout_tx_started_hook]))
      0 (tx_started_fn (stub_features true))
      (budget (map Some [nrf_802154_csma_ca_tx_started_hook;
                         nrf_802154_ack_timeout_tx_started_hook]))
      0 true (0%nat, 0) [].
Proof.
  split; [reflexivity|].
  exact (proj1 (closing_null_unused 0 (tx_started_fn (stub_features true))
                  (fun _ _ => stub_void)
                  [nrf_802154_csma_ca_tx_started_hook;
                   nrf_802154_ack_timeout_tx_started_hook]
                  (0%nat, 0) eq_refl)).
Defined.

(** terminate granted by the accepting stubs in the full build. *)
Lemma terminate_granted_unanimously_witness :
  let r := and_chain (0, 0) (abort_invoke (stub_features true))
             (candidates (m_abort_hooks all_features)) true (0%nat, 0) in
  nrf_802154_core_hooks_terminate (stub_features true) all_features
    0 0 (0%nat, 0) = Done r /\
  run_result r = true /\
  length (run_calls r) = 5%nat.
Proof.
  cbv zeta.
  split; [reflexivity|]. split; [reflexivity|].
  exact (proj1 (proj2 (proj2
    (terminate_granted_unanimously (stub_features true) all_features 0 0
       (0%nat, 0) _ eq_refl eq_refl)))).
Defined.

(** transmitted in the build with CSMA/CA and ACK timeout against the
    full build. *)
Lemma notifications_grow_with_build_witness :
  config_sub csma_and_ack_timeout all_features = true /\
  notifies_enabled_of csma_and_ack_timeout
    (nrf_802154_core_hooks_transmitted (stub_features true)
       csma_and_ack_timeout 0 (0%nat, 0))
    (nrf_802154_core_hooks_transmitted (stub_features true)
       all_features 0 (3%nat, 0)).
Proof.
  split; [reflexivity|].
  exact (proj1 (proj2
    (notifications_grow_with_build (stub_features true)
       csma_and_ack_timeout all_features 0 true 0 0
       (0%nat, 0) (3%nat, 0) eq_refl))).
Defined.

(** terminate in the full build when CSMA/CA refuses. *)
Lemma csma_ca_consulted_first_witness :
  NRF_802154_CSMA_CA_ENABLED all_features = true /\
  nrf_802154_core_hooks_terminate (stub_features false) all_features
    0 0 (0%nat, 0) =
  Done (mk_run false (1%nat, 0)
          [mk_call nrf_802154_csma_ca_abort (0, 0) false]).
Proof.
  split; [reflexivity|].
  exact (proj1
    (csma_ca_consulted_first (stub_features false) all_features
       0 0 0 true tt 0 0 0 (0%nat, 0) eq_refl)).
Defined.

(** The stubs give their verdict whatever the state. *)
Lemma veto_result_is_conjunction_witness :
  stateless_verdicts (stub_features false) /\
  returns_conjunction (tx_failed_invoke (stub_features false))
    (m_tx_failed_hooks all_features) (0, 0) (0%nat, 0)
    (nrf_802154_core_hooks_tx_failed (stub_features false) all_features
       0 0 (0%nat, 0)).
Proof.
  assert (Hstateless : stateless_verdicts (stub_features false))
    by (unfold stateless_verdicts; conjuncts; intros h a w w'; reflexivity).
  split; [exact Hstateless|].
  exact (proj1 (proj2 (proj2
    (veto_result_is_conjunction (stub_features false) all_features
       0 0 0 true tt 0 (0%nat, 0) Hstateless)))).
Defined.
